(** * NMEA0183 to serial port forwarder: a shallow embedding of [src/index.ts]

    The plugin keeps three variables at module scope ([reportInterval],
    [forwardedCounter], [serial]) and exposes [start] and [stop]; [start]
    defines the two closures [reporter] and [nmeaHandler].  The development
    below gives each of them as a function on an explicit world state and
    proves the properties of the framing check, of the forwarding counter
    and of the start/stop lifecycle. *)

From Stdlib Require Import List ZArith NArith Lia Bool String Ascii.
Import ListNotations.

Set Implicit Arguments.

(** ** JavaScript strings *)

Module JsString.

(** A JavaScript string is a sequence of UTF-16 code units. *)
Definition jsstring := list N.

Definition code_unit (c : ascii) : N := N_of_ascii c.

(** String literals of the source, written as Rocq strings. *)
Definition str (s : string) : jsstring := map code_unit (list_ascii_of_string s).

Definition CR : N := 13.
Definition LF : N := 10.

(** The literal [\r\n]. *)
Definition crlf : jsstring := [CR; LF].

Fixpoint eqb (a b : jsstring) : bool :=
  match a, b with
  | [], [] => true
  | x :: a', y :: b' => N.eqb x y && eqb a' b'
  | _, _ => false
  end.

(** [String.prototype.length], a JavaScript number. *)
Definition length (s : jsstring) : Z := Z.of_nat (List.length s).

(** ECMAScript WhiteSpace and LineTerminator code points: the characters
    [String.prototype.trim] strips.  All of them are single code units. *)
Definition is_white_space (c : N) : bool :=
  (N.eqb c 9 || N.eqb c 10 || N.eqb c 11 || N.eqb c 12 || N.eqb c 13
   || N.eqb c 32 || N.eqb c 160 || N.eqb c 5760
   || (N.leb 8192 c && N.leb c 8202)
   || N.eqb c 8232 || N.eqb c 8233 || N.eqb c 8239 || N.eqb c 8287
   || N.eqb c 12288 || N.eqb c 65279)%bool.

Fixpoint trimStart (s : jsstring) : jsstring :=
  match s with
  | [] => []
  | c :: s' => if is_white_space c then trimStart s' else s
  end.

Fixpoint trimEnd (s : jsstring) : jsstring :=
  match s with
  | [] => []
  | c :: s' =>
      match trimEnd s' with
      | [] => if is_white_space c then [] else [c]
      | t => c :: t
      end
  end.

(** [String.prototype.trim]. *)
Definition trim (s : jsstring) : jsstring := trimEnd (trimStart s).

(** [String.prototype.startsWith(searchString)] at position 0. *)
Fixpoint startsWith (s searchString : jsstring) : bool :=
  match searchString, s with
  | [], _ => true
  | _ :: _, [] => false
  | x :: p', c :: s' => N.eqb c x && startsWith s' p'
  end.

(** [String.prototype.charAt(pos)]: the one-unit string at [pos], and the
    empty string when [pos] is negative or not below the length. *)
Definition charAt (s : jsstring) (pos : Z) : jsstring :=
  if (pos <? 0)%Z || (length s <=? pos)%Z then []
  else match nth_error s (Z.to_nat pos) with
       | Some c => [c]
       | None => []
       end.

(** Decimal digits of a non-negative integer, as a template literal
    renders a number. *)
Fixpoint digits (d : Decimal.uint) : jsstring :=
  match d with
  | Decimal.Nil => []
  | Decimal.D0 d' => 48%N :: digits d'
  | Decimal.D1 d' => 49%N :: digits d'
  | Decimal.D2 d' => 50%N :: digits d'
  | Decimal.D3 d' => 51%N :: digits d'
  | Decimal.D4 d' => 52%N :: digits d'
  | Decimal.D5 d' => 53%N :: digits d'
  | Decimal.D6 d' => 54%N :: digits d'
  | Decimal.D7 d' => 55%N :: digits d'
  | Decimal.D8 d' => 56%N :: digits d'
  | Decimal.D9 d' => 57%N :: digits d'
  end.

Definition number_to_string (n : N) : jsstring := digits (N.to_uint n).

(** [Number::toString] of ECMAScript for a Number whose value is the
    non-negative integer [x].  A Number carries 53 significant bits, and its
    text is the shortest run of decimal digits that reads back as the same
    Number: written out in full below 10^21, in exponent form from there.
    An integer that is no Number stands for the Number nearest to it, as a
    literal of that value does, and for [Infinity] from 2^1024 on. *)

(** The Number nearest to the integer [m]: round to nearest, ties to even. *)
Definition nearest_Number (m : N) : N :=
  let e := N.log2 m in
  if (e <? 53)%N then m
  else
    let sh := (e - 52)%N in
    let q := (m / 2 ^ sh)%N in
    let r := (m mod 2 ^ sh)%N in
    let half := (2 ^ (sh - 1))%N in
    let q' := if (r <? half)%N then q
              else if (half <? r)%N then (q + 1)%N
              else if N.even q then q else (q + 1)%N in
    (q' * 2 ^ sh)%N.

(** Among the integers s * 10^(nd-k) next to [x], the one that reads back as
    [x], the nearer one if both do and the one with even s if they are as
    near; [nd] is the number of decimal digits of [x]. *)
Definition shortest_at (x : N) (nd k : nat) : option N :=
  let step := (10 ^ N.of_nat (nd - k))%N in
  let lo := (x / step * step)%N in
  let hi := (lo + step)%N in
  let ok_lo := (0 <? lo)%N && (nearest_Number lo =? x)%N in
  let ok_hi := (nearest_Number hi =? x)%N in
  match ok_lo, ok_hi with
  | true, true =>
      if (x - lo <? hi - x)%N then Some lo
      else if (hi - x <? x - lo)%N then Some hi
      else if N.even (x / step) then Some lo else Some hi
  | true, false => Some lo
  | false, true => Some hi
  | false, false => None
  end.

(** The first [k], counting up, that has such an integer.  There is one for
    every Number. *)
Fixpoint shortest_from (x : N) (nd k fuel : nat) : N :=
  match fuel with
  | O => x
  | S fuel' =>
      match shortest_at x nd k with
      | Some v => v
      | None => shortest_from x nd (S k) fuel'
      end
  end.

Definition shortest_decimal (x : N) : N :=
  let nd := List.length (digits (N.to_uint x)) in
  shortest_from x nd 1 (Nat.min nd 17).

(** Digits without the zeros at the end. *)
Fixpoint strip_zeros (ds : jsstring) : jsstring :=
  match ds with
  | [] => []
  | d :: ds' =>
      match strip_zeros ds' with
      | [] => if (d =? 48)%N then [] else [d]
      | t => d :: t
      end
  end.

Definition Number_toString (x : N) : jsstring :=
  let x := nearest_Number x in
  if (x =? 0)%N then [48%N]
  else if (2 ^ 1024 <=? x)%N then str "Infinity"
  else
    let ds := digits (N.to_uint (shortest_decimal x)) in
    let n := List.length ds in
    if (n <=? 21)%nat then ds
    else
      match strip_zeros ds with
      | [] => ds
      | [d] => d :: str "e+" ++ number_to_string (N.of_nat (n - 1))
      | d :: rest => d :: str "." ++ rest ++ str "e+" ++ number_to_string (N.of_nat (n - 1))
      end.

End JsString.

Import JsString.

(** ** The framing check

    The condition of the [if] in [nmeaHandler]:
    [data.startsWith('$') && data.charAt(len - 3) === '*'] with
    [data = `${sentence}`.trim()] and [len = data.length]. *)

Definition frame_ok (data : jsstring) : bool :=
  let len := JsString.length data in
  startsWith data (str "$") && JsString.eqb (charAt data (len - 3)) (str "*").

Definition isForwardable (sentence : jsstring) : bool :=
  frame_ok (trim sentence).

(** ** Values thrown and plugin settings *)

(** A thrown value, seen through the only thing the plugin reads from it:
    [err?.message], which is [undefined] for [null], [undefined], a
    primitive or an object without that property. *)
Record jsexn := Thrown { message : option jsstring }.

(** [`${err?.message}`]. *)
Definition render_message (err : jsexn) : jsstring :=
  match message err with
  | Some m => m
  | None => str "undefined"
  end.

(** The object handed to [start].  It comes from the host as [any]; a field
    that is absent reads as [undefined], here [None]. *)
Record PluginSettings := {
  baudRate : option N;
  serialPort : option jsstring
}.

(** [`${settings.serialPort}`] and [`${settings.baudRate}`]; a baud rate [b]
    stands for the Number of that value and is printed by [Number::toString]. *)
Definition render_serialPort (settings : PluginSettings) : jsstring :=
  match serialPort settings with
  | Some p => p
  | None => str "undefined"
  end.

Definition render_baudRate (settings : PluginSettings) : jsstring :=
  match baudRate settings with
  | Some b => Number_toString b
  | None => str "undefined"
  end.

(** [Number(settings.baudRate || 38400)]: [undefined] and [0] are falsy. *)
Definition effective_baudRate (settings : PluginSettings) : N :=
  match baudRate settings with
  | Some 0%N | None => 38400%N
  | Some b => b
  end.

(** ** The world: module variables and the objects they refer to *)

(** A timer made by [setInterval]; [clearInterval] makes it inactive. *)
Record Timer := {
  period : N;
  active : bool
}.

(** The two listeners [start] attaches to the serial port object. *)
Inductive PortListener :=
| OnOpen (settings : PluginSettings)
| OnError.

(** A [SerialPort] object: the options it was built with, whether the device
    is open, and the listeners attached with [serial.on]. *)
Record SerialPort := {
  sp_path : option jsstring;
  sp_baudRate : N;
  isOpen : bool;
  sp_listeners : list PortListener
}.

(** Module-scope variables ([reportInterval], [forwardedCounter], [serial])
    hold references: a timer or a port is named by its position in [timers]
    or [ports].  [bus] lists the channels [nmeaHandler] is subscribed to, one
    entry per [anyApp.on] call.

    [forwardedCounter] is a JavaScript number that only ever holds a
    non-negative integer: it starts at 0, is reset to 0 and changes by [++].
    It is modelled as [N]; [++] and the decimal rendering are exact for every
    integer below 2^53. *)
Record World := {
  reportInterval : option nat;
  forwardedCounter : N;
  serial : option nat;
  timers : list Timer;
  ports : list SerialPort;
  bus : list jsstring
}.

(** The module as loaded: [null], [0], [null], and nothing allocated. *)
Definition initial : World :=
  {| reportInterval := None; forwardedCounter := 0; serial := None;
     timers := []; ports := []; bus := [] |}.

Definition set_reportInterval (v : option nat) (w : World) : World :=
  {| reportInterval := v; forwardedCounter := forwardedCounter w;
     serial := serial w; timers := timers w; ports := ports w; bus := bus w |}.

Definition set_forwardedCounter (v : N) (w : World) : World :=
  {| reportInterval := reportInterval w; forwardedCounter := v;
     serial := serial w; timers := timers w; ports := ports w; bus := bus w |}.

Definition set_serial (v : option nat) (w : World) : World :=
  {| reportInterval := reportInterval w; forwardedCounter := forwardedCounter w;
     serial := v; timers := timers w; ports := ports w; bus := bus w |}.

Definition set_timers (v : list Timer) (w : World) : World :=
  {| reportInterval := reportInterval w; forwardedCounter := forwardedCounter w;
     serial := serial w; timers := v; ports := ports w; bus := bus w |}.

Definition set_ports (v : list SerialPort) (w : World) : World :=
  {| reportInterval := reportInterval w; forwardedCounter := forwardedCounter w;
     serial := serial w; timers := timers w; ports := v; bus := bus w |}.

Definition set_bus (v : list jsstring) (w : World) : World :=
  {| reportInterval := reportInterval w; forwardedCounter := forwardedCounter w;
     serial := serial w; timers := timers w; ports := ports w; bus := v |}.

(** Update of the object at position [i]; nothing changes out of range. *)
Fixpoint update {A : Type} (i : nat) (f : A -> A) (l : list A) : list A :=
  match l, i with
  | [], _ => []
  | x :: l', O => f x :: l'
  | x :: l', S i' => x :: update i' f l'
  end.

(** ** What leaves the plugin, and what the libraries may throw *)

(** Messages handed to the host and data handed to [serial.write], in the
    order the calls are made. *)
Inductive output :=
| Debug (msg : jsstring)
| PluginStatus (msg : jsstring)
| PluginError (msg : jsstring)
| SerialWrite (port : nat) (data : jsstring).

(** Calls into the serialport library, the host's event emitter and the
    timer API.  Whether such a call throws is not decided by this
    repository: an [Env] says, for each call, whether it throws and what. *)
Inductive extcall :=
| NewSerialPort (path : option jsstring) (baud : N)
| SerialOn (port : nat) (event : jsstring)
| AppOn (event : jsstring)
| SetInterval (ms : N)
| SerialWriteCall (port : nat) (data : jsstring).

Definition Env := extcall -> option jsexn.

(** The libraries behaving: no call throws. *)
Definition quiet : Env := fun _ => None.

(** ** A state, output and exception monad *)

Inductive completion (A : Type) :=
| Normal (a : A)
| Throw (err : jsexn).

Arguments Normal {A} a.
Arguments Throw {A} err.

Record Res (A : Type) := mkRes {
  res_world : World;
  res_out : list output;
  res_val : completion A
}.

Definition M (A : Type) := World -> Res A.

Definition ret {A : Type} (a : A) : M A :=
  fun w => mkRes w [] (Normal a).

Definition bind {A B : Type} (m : M A) (f : A -> M B) : M B :=
  fun w =>
    let r := m w in
    match res_val r with
    | Normal a =>
        let r' := f a (res_world r) in
        mkRes (res_world r') (res_out r ++ res_out r') (res_val r')
    | Throw err => mkRes (res_world r) (res_out r) (Throw err)
    end.

(** [try { m } catch (err) { handler err }]. *)
Definition try_catch {A : Type} (m : M A) (handler : jsexn -> M A) : M A :=
  fun w =>
    let r := m w in
    match res_val r with
    | Normal _ => r
    | Throw err =>
        let r' := handler err (res_world r) in
        mkRes (res_world r') (res_out r ++ res_out r') (res_val r')
    end.

Definition get : M World :=
  fun w => mkRes w [] (Normal w).

Definition modify (f : World -> World) : M unit :=
  fun w => mkRes (f w) [] (Normal tt).

Definition emit (o : output) : M unit :=
  fun w => mkRes w [o] (Normal tt).

Definition throw {A : Type} (err : jsexn) : M A :=
  fun w => mkRes w [] (Throw err).

Definition external (env : Env) (c : extcall) : M unit :=
  match env c with
  | Some err => throw err
  | None => ret tt
  end.

Declare Scope js_scope.
Delimit Scope js_scope with js.
Notation "x <- m ;; k" := (bind m (fun x => k))
  (at level 61, m at next level, right associativity) : js_scope.
Notation "m ;; k" := (bind m (fun _ => k))
  (at level 61, right associativity) : js_scope.
Notation "a +++ b" := (@app N a b)
  (at level 60, right associativity) : js_scope.
Local Open Scope js_scope.

(** ** The host and library calls the plugin makes *)

Definition app_debug (msg : jsstring) : M unit := emit (Debug msg).

Definition app_setPluginStatus (msg : jsstring) : M unit := emit (PluginStatus msg).

Definition app_setPluginError (msg : jsstring) : M unit := emit (PluginError msg).

(** [new SerialPort({ path, baudRate })]: a new port object, not open yet; the
    library opens it later and tells through the 'open' or 'error' event. *)
Definition new_SerialPort (env : Env) (path : option jsstring) (baud : N) : M nat :=
  external env (NewSerialPort path baud) ;;
  w <- get ;;
  modify (set_ports (ports w ++
            [{| sp_path := path; sp_baudRate := baud;
                isOpen := false; sp_listeners := [] |}])) ;;
  ret (List.length (ports w)).

Definition add_listener (l : PortListener) (p : SerialPort) : SerialPort :=
  {| sp_path := sp_path p; sp_baudRate := sp_baudRate p;
     isOpen := isOpen p; sp_listeners := sp_listeners p ++ [l] |}.

(** [serial.on(event, listener)]. *)
Definition serial_on (env : Env) (p : nat) (event : jsstring) (l : PortListener)
  : M unit :=
  external env (SerialOn p event) ;;
  w <- get ;;
  modify (set_ports (update p (add_listener l) (ports w))).

(** [anyApp.on(event, nmeaHandler)]. *)
Definition app_on (env : Env) (event : jsstring) : M unit :=
  external env (AppOn event) ;;
  w <- get ;;
  modify (set_bus (bus w ++ [event])).

(** [setInterval(reporter, ms)]. *)
Definition setInterval (env : Env) (ms : N) : M nat :=
  external env (SetInterval ms) ;;
  w <- get ;;
  modify (set_timers (timers w ++ [{| period := ms; active := true |}])) ;;
  ret (List.length (timers w)).

Definition cancel (t : Timer) : Timer :=
  {| period := period t; active := false |}.

(** [clearInterval(t)]. *)
Definition clearInterval (t : nat) : M unit :=
  w <- get ;;
  modify (set_timers (update t cancel (timers w))).

(** [serial.write(data)] on port [p]. *)
Definition serial_write (env : Env) (p : nat) (data : jsstring) : M unit :=
  emit (SerialWrite p data) ;;
  external env (SerialWriteCall p data).

(** ** The plugin *)

Definition plugin_id : jsstring := str "signalk-nmea0183-to-serial".

Definition plugin_name : jsstring := str "NMEA0183 to Serial Port Forwarder".

Definition reporter : M unit :=
  w <- get ;;
  app_setPluginStatus
    (str "Forwarded " +++ number_to_string (forwardedCounter w)
       +++ str " NMEA0183 messages.") ;;
  modify (set_forwardedCounter 0).

Definition nmeaHandler (env : Env) (sentence : jsstring) : M unit :=
  let data := trim sentence in
  let len := JsString.length data in
  if startsWith data (str "$") && JsString.eqb (charAt data (len - 3)) (str "*")
  then
    w <- get ;;
    modify (set_forwardedCounter (forwardedCounter w + 1)) ;;
    w <- get ;;
    match serial w with
    | Some p => serial_write env p (data +++ crlf)
    | None => ret tt
    end
  else ret tt.

(** The body of the [try] block of [start]. *)
Definition start_try (env : Env) (settings : PluginSettings) : M unit :=
  p <- new_SerialPort env (serialPort settings) (effective_baudRate settings) ;;
  modify (set_serial (Some p)) ;;
  serial_on env p (str "open") (OnOpen settings) ;;
  serial_on env p (str "error") OnError ;;
  app_on env (str "nmea0183") ;;
  app_on env (str "nmea0183out") ;;
  t <- setInterval env 20000 ;;
  modify (set_reportInterval (Some t)) ;;
  app_setPluginStatus (str "Started").

Definition start_catch (err : jsexn) : M unit :=
  app_setPluginError (str "Error starting plugin: " +++ render_message err).

Definition start (env : Env) (settings : PluginSettings) : M unit :=
  app_debug (plugin_id +++ str " starting...") ;;
  try_catch (start_try env settings) start_catch.

Definition stop : M unit :=
  w <- get ;;
  match reportInterval w with
  | Some t => clearInterval t
  | None => ret tt
  end ;;
  app_setPluginStatus (plugin_name +++ str " stopped.").

(** ** Events from outside *)

Definition open_port (p : SerialPort) : SerialPort :=
  {| sp_path := sp_path p; sp_baudRate := sp_baudRate p;
     isOpen := true; sp_listeners := sp_listeners p |}.

(** The listeners of [start], run for an event whose payload renders as
    [err] (only the 'error' listener reads it). *)
Definition run_listener (event : jsstring) (err : jsstring) (l : PortListener)
  : M unit :=
  match l with
  | OnOpen settings =>
      if JsString.eqb event (str "open") then
        app_setPluginStatus
          (str "Opened serial port " +++ render_serialPort settings
             +++ str " with baudrate " +++ render_baudRate settings +++ str ".")
      else ret tt
  | OnError =>
      if JsString.eqb event (str "error") then
        app_setPluginStatus (str "Serial port error: " +++ err +++ str ".")
      else ret tt
  end.

Fixpoint run_listeners (event err : jsstring) (ls : list PortListener) : M unit :=
  match ls with
  | [] => ret tt
  | l :: ls' => run_listener event err l ;; run_listeners event err ls'
  end.

(** The library reports that port [p] is open. *)
Definition port_opened (p : nat) : M unit :=
  w <- get ;;
  modify (set_ports (update p open_port (ports w))) ;;
  match nth_error (ports w) p with
  | Some sp => run_listeners (str "open") [] (sp_listeners sp)
  | None => ret tt
  end.

(** The library reports an error on port [p]; the port stays as it is. *)
Definition port_error (p : nat) (err : jsstring) : M unit :=
  w <- get ;;
  match nth_error (ports w) p with
  | Some sp => run_listeners (str "error") err (sp_listeners sp)
  | None => ret tt
  end.

(** Sentences delivered to [nmeaHandler] one callback after the other, each
    with the library behaviour of its moment.  An exception of one callback
    goes to the emitter and does not reach the next. *)
Fixpoint deliver (events : list (Env * jsstring)) (w : World)
  : World * list output :=
  match events with
  | [] => (w, [])
  | (env, sentence) :: rest =>
      let r := nmeaHandler env sentence w in
      let (w', outs) := deliver rest (res_world r) in
      (w', res_out r ++ outs)
  end.

(** How many of the delivered sentences pass the framing check. *)
Definition count_forwardable (events : list (Env * jsstring)) : nat :=
  List.length (filter (fun e => isForwardable (snd e)) events).

(** The port the module variable [serial] refers to is open. *)
Definition transport_open (w : World) : bool :=
  match serial w with
  | Some p =>
      match nth_error (ports w) p with
      | Some sp => isOpen sp
      | None => false
      end
  | None => false
  end.

Definition is_write (o : output) : bool :=
  match o with
  | SerialWrite _ _ => true
  | _ => false
  end.

(** The number of [serial.write] calls among the outputs. *)
Definition writes (outs : list output) : nat :=
  List.length (filter is_write outs).

(** The report timer [t] comes due: an active timer runs [reporter], a
    cancelled one runs nothing. *)
Definition tick (t : nat) : M unit :=
  w <- get ;;
  match nth_error (timers w) t with
  | Some tm => if active tm then reporter else ret tt
  | None => ret tt
  end.

(** [stop] called [n] times in a row. *)
Fixpoint stops (n : nat) : M unit :=
  match n with
  | O => ret tt
  | S n' => stop ;; stops n'
  end.

(** The calls of the [try] block of [start] that go into a library, in
    program order; [p] is the port the constructor returns. *)
Definition start_calls (settings : PluginSettings) (p : nat) : list extcall :=
  [NewSerialPort (serialPort settings) (effective_baudRate settings);
   SerialOn p (str "open");
   SerialOn p (str "error");
   AppOn (str "nmea0183");
   AppOn (str "nmea0183out");
   SetInterval 20000].

(** What the first throwing call of a sequence throws, if any does. *)
Fixpoint first_throw (env : Env) (calls : list extcall) : option jsexn :=
  match calls with
  | [] => None
  | c :: calls' =>
      match env c with
      | Some err => Some err
      | None => first_throw env calls'
      end
  end.

(** The status [stop] publishes. *)
Definition stopped_status : output :=
  PluginStatus (str "NMEA0183 to Serial Port Forwarder stopped.").

(** The timers as [stop] leaves them. *)
Definition timers_after_stop (w : World) : list Timer :=
  match reportInterval w with
  | Some t => update t cancel (timers w)
  | None => timers w
  end.

(** Sample inputs. *)
Definition sample_settings : PluginSettings :=
  {| baudRate := Some 4800%N; serialPort := Some (str "/dev/test0") |}.

Definition sample_sentence : jsstring := str "$IIVWR,,,,,,,*hh".

Definition sample_events : list (Env * jsstring) :=
  [(quiet, sample_sentence); (quiet, str "garbage");
   (quiet, str "  $GPRMC,...*5B  "); (quiet, str "$"); (quiet, str "$GPGGA,1*1A")].

(** The world after a [start] in which no library call throws, before the
    library has reported the port open. *)
Definition started : World := res_world (start quiet sample_settings initial).

(** A library whose [SerialPort] constructor throws [err]. *)
Definition broken_constructor (err : jsexn) : Env :=
  fun c =>
    match c with
    | NewSerialPort _ _ => Some err
    | _ => None
    end.

(** A library whose [setInterval] throws [err]. *)
Definition broken_timer (err : jsexn) : Env :=
  fun c =>
    match c with
    | SetInterval _ => Some err
    | _ => None
    end.

(** ** The host's event emitter and the event loop *)

(** [anyApp.emit(channel, sentence)] as Node's EventEmitter runs it: the
    listeners subscribed to [channel] are called in subscription order, and a
    listener that throws ends the emit with its exception.  Every listener on
    the bus is an [nmeaHandler] closure. *)
Fixpoint emit_listeners (env : Env) (channel sentence : jsstring)
         (subscriptions : list jsstring) : M unit :=
  match subscriptions with
  | [] => ret tt
  | c :: rest =>
      (if JsString.eqb c channel then nmeaHandler env sentence else ret tt) ;;
      emit_listeners env channel sentence rest
  end.

Definition app_emit (env : Env) (channel sentence : jsstring) : M unit :=
  w <- get ;;
  emit_listeners env channel sentence (bus w).

(** How many listeners the bus has on [channel]. *)
Definition subscribers (channel : jsstring) (subscriptions : list jsstring) : nat :=
  List.length (filter (fun c => JsString.eqb c channel) subscriptions).

(** What can happen to the plugin: the host calls [start] or [stop], a
    sentence is emitted on a channel, a timer comes due, the serial library
    reports a port open or in error. *)
Inductive event :=
| EvStart (env : Env) (settings : PluginSettings)
| EvStop
| EvSentence (env : Env) (channel sentence : jsstring)
| EvTimer (t : nat)
| EvPortOpened (p : nat)
| EvPortError (p : nat) (err : jsstring).

Definition handle (e : event) : M unit :=
  match e with
  | EvStart env settings => start env settings
  | EvStop => stop
  | EvSentence env channel sentence => app_emit env channel sentence
  | EvTimer t => tick t
  | EvPortOpened p => port_opened p
  | EvPortError p err => port_error p err
  end.

(** The event loop: one callback after the other; an exception ends its
    callback only. *)
Fixpoint run (events : list event) (w : World) : World * list output :=
  match events with
  | [] => (w, [])
  | e :: rest =>
      let r := handle e w in
      let (w', outs) := run rest (res_world r) in
      (w', res_out r ++ outs)
  end.

(** [start] then [stop], [k] times over, with libraries that never throw. *)
Fixpoint restarts (k : nat) (settings : PluginSettings) : M unit :=
  match k with
  | O => ret tt
  | S k' => start quiet settings ;; stop ;; restarts k' settings
  end.

(** ** Predicates on worlds *)

(** The module variables refer to objects that exist. *)
Definition refs_valid (w : World) : Prop :=
  (forall p : nat, serial w = Some p -> p < List.length (ports w)) /\
  (forall t : nat, reportInterval w = Some t -> t < List.length (timers w)).

(** A port object later on: same options, still open if it was, and at least
    the listeners it had. *)
Definition port_kept (sp sp' : SerialPort) : Prop :=
  sp_path sp' = sp_path sp /\
  sp_baudRate sp' = sp_baudRate sp /\
  (isOpen sp = true -> isOpen sp' = true) /\
  exists more : list PortListener, sp_listeners sp' = sp_listeners sp ++ more.

(** Nothing of [w] has been released in [w']: every port is kept, every
    subscription is still there, and a set [serial] is still set. *)
Definition nothing_released (w w' : World) : Prop :=
  (forall (i : nat) (sp : SerialPort),
      nth_error (ports w) i = Some sp ->
      exists sp' : SerialPort, nth_error (ports w') i = Some sp' /\ port_kept sp sp') /\
  (exists more : list jsstring, bus w' = bus w ++ more) /\
  (serial w <> None -> serial w' <> None).

(** What one callback may do to the objects of the world: ports, timers and
    subscriptions are only added; a port that exists is kept; [serial] and
    [reportInterval] keep their value or move to an object added last. *)
Definition step_frame (w w' : World) : Prop :=
  List.length (ports w) <= List.length (ports w') /\
  List.length (timers w) <= List.length (timers w') /\
  (forall (i : nat) (sp : SerialPort),
      nth_error (ports w) i = Some sp ->
      exists sp' : SerialPort, nth_error (ports w') i = Some sp' /\ port_kept sp sp') /\
  (exists more : list jsstring, bus w' = bus w ++ more) /\
  (serial w' = serial w \/
   serial w' = Some (List.length (ports w)) /\
   List.length (ports w) < List.length (ports w')) /\
  (reportInterval w' = reportInterval w \/
   reportInterval w' = Some (List.length (timers w)) /\
   List.length (timers w) < List.length (timers w')).

(** A line as an NMEA0183 talker frames it, with the CR LF the plugin adds:
    [$], any text, [*], two code units, CR, LF. *)
Definition framed_line (data : jsstring) : Prop :=
  exists (body : jsstring) (a b : N),
    data = [code_unit "$"] ++ body ++ [code_unit "*"; a; b; CR; LF].

Definition framed_write (o : output) : Prop :=
  match o with
  | SerialWrite _ data => framed_line data
  | _ => True
  end.

(** The port object a [start] builds, once both listeners are attached. *)
Definition port_of (settings : PluginSettings) : SerialPort :=
  {| sp_path := serialPort settings;
     sp_baudRate := effective_baudRate settings;
     isOpen := false;
     sp_listeners := [OnOpen settings; OnError] |}.

(** The world a [start] without exception leads to. *)
Definition after_start (settings : PluginSettings) (w : World) : World :=
  {| reportInterval := Some (List.length (timers w));
     forwardedCounter := forwardedCounter w;
     serial := Some (List.length (ports w));
     timers := timers w ++ [{| period := 20000; active := true |}];
     ports := ports w ++ [port_of settings];
     bus := bus w ++ [str "nmea0183"; str "nmea0183out"] |}.

(** ** The configuration schema *)

Local Unset Elimination Schemes.

Inductive json :=
| JString (s : jsstring)
| JNumber (n : N)
| JArray (items : list json)
| JObject (fields : list (jsstring * json)).

Local Set Elimination Schemes.

(** [plugin.schema()]. *)
Definition schema : json :=
  JObject
    [(str "type", JString (str "object"));
     (str "required", JArray [JString (str "baudRate"); JString (str "serialPort")]);
     (str "properties",
      JObject
        [(str "serialPort",
          JObject
            [(str "type", JString (str "string"));
             (str "title",
              JString (str "The serial port device to use (e.g. /dev/ttyUSB0)."));
             (str "default", JString (str "/dev/ttyUSB0"))]);
         (str "baudRate",
          JObject
            [(str "type", JString (str "number"));
             (str "title", JString (str "The serial port baudrate to use."));
             (str "default", JNumber 38400)])])].

Fixpoint assoc (key : jsstring) (fields : list (jsstring * json)) : option json :=
  match fields with
  | [] => None
  | (k, v) :: rest => if JsString.eqb k key then Some v else assoc key rest
  end.

(** Property access [j.key]. *)
Definition member (key : jsstring) (j : json) : option json :=
  match j with
  | JObject fields => assoc key fields
  | _ => None
  end.

(** [schema().properties[name].default]. *)
Definition schema_default (name : jsstring) : option json :=
  match member (str "properties") schema with
  | Some props =>
      match member name props with
      | Some prop => member (str "default") prop
      | None => None
      end
  | None => None
  end.

(** The names listed under [required]. *)
Definition schema_required : list jsstring :=
  match member (str "required") schema with
  | Some (JArray items) =>
      flat_map (fun j => match j with JString s => [s] | _ => [] end) items
  | _ => []
  end.

(** * Properties *)

Example isForwardable_gga :
  isForwardable (str "$GPGGA,...,checksum*1A") = true.
Proof. reflexivity. Qed.

Example isForwardable_no_dollar :
  isForwardable (str "no-dollar*1A") = false.
Proof. reflexivity. Qed.

Example isForwardable_dollar_only :
  isForwardable (str "$") = false.
Proof. reflexivity. Qed.

Example isForwardable_padded :
  isForwardable (str "  $GPRMC,...*5B  ") = true.
Proof. reflexivity. Qed.

Example number_to_string_1205 :
  number_to_string 1205 = str "1205".
Proof. reflexivity. Qed.

Example number_to_string_0 :
  number_to_string 0 = str "0".
Proof. reflexivity. Qed.

Example Number_toString_4800 :
  Number_toString 4800 = str "4800".
Proof. reflexivity. Qed.

Example Number_toString_safe :
  Number_toString (2 ^ 53) = str "9007199254740992".
Proof. vm_compute. reflexivity. Qed.

Example Number_toString_rounded :
  Number_toString (2 ^ 60) = str "1152921504606847000".
Proof. vm_compute. reflexivity. Qed.

Example Number_toString_below_1e21 :
  Number_toString (10 ^ 21 - 131072) = str "999999999999999900000".
Proof. vm_compute. reflexivity. Qed.

Example Number_toString_1e21 :
  Number_toString (10 ^ 21) = str "1e+21".
Proof. vm_compute. reflexivity. Qed.

Example Number_toString_exponent :
  Number_toString (15 * 10 ^ 20) = str "1.5e+21".
Proof. vm_compute. reflexivity. Qed.

Example Number_toString_nearest :
  Number_toString (2 ^ 53 + 1) = str "9007199254740992".
Proof. vm_compute. reflexivity. Qed.

(** ** Strings *)

Lemma eqb_eq (a b : jsstring) : JsString.eqb a b = true <-> a = b.
Proof.
  revert b; induction a as [|x a IH]; intros [|y b]; simpl;
    try (split; [discriminate | congruence]); try tauto.
  rewrite andb_true_iff, N.eqb_eq, IH.
  split; [intros [-> ->]; reflexivity | intros H; inversion H; auto].
Qed.

Lemma startsWith_unit (data : jsstring) (c : N) :
  startsWith data [c] = true <-> nth_error data 0 = Some c.
Proof.
  destruct data as [|d data]; simpl.
  - split; discriminate.
  - replace (startsWith data []) with true by (destruct data; reflexivity).
    rewrite andb_true_r, N.eqb_eq. split; congruence.
Qed.

Lemma charAt_unit (data : jsstring) (pos : Z) (c : N) :
  JsString.eqb (charAt data pos) [c] = true <->
  (0 <= pos)%Z /\ nth_error data (Z.to_nat pos) = Some c.
Proof.
  unfold charAt.
  destruct (Z.ltb_spec pos 0) as [Hneg|Hpos]; simpl.
  - split; [discriminate | lia].
  - destruct (Z.leb_spec (JsString.length data) pos) as [Hout|Hin]; simpl.
    + split; [discriminate|].
      intros [_ H].
      assert (Z.to_nat pos < List.length data)
        by (apply nth_error_Some; congruence).
      unfold JsString.length in Hout. lia.
    + destruct (nth_error data (Z.to_nat pos)) as [d|]; simpl.
      * rewrite andb_true_r, N.eqb_eq. split; [intros ->; auto | intros [_ H]; congruence].
      * split; [discriminate | intros [_ H]; discriminate].
Qed.

Lemma charAt_out_of_range (data : jsstring) (pos : Z) :
  (pos < 0)%Z \/ (JsString.length data <= pos)%Z -> charAt data pos = [].
Proof.
  intros H. unfold charAt.
  destruct (Z.ltb_spec pos 0); simpl; auto.
  destruct (Z.leb_spec (JsString.length data) pos); simpl; auto. lia.
Qed.

(** ** Trimming *)

Lemma trimStart_decompose (s : jsstring) :
  exists l : jsstring,
    s = l ++ trimStart s /\ forallb is_white_space l = true.
Proof.
  induction s as [|c s (l & Hs & Hl)]; simpl.
  - exists []. auto.
  - destruct (is_white_space c) eqn:Hc.
    + exists (c :: l). simpl. rewrite Hc, Hl. split; [congruence | reflexivity].
    + exists []. auto.
Qed.

Lemma trimStart_head (s : jsstring) (c : N) (rest : jsstring) :
  trimStart s = c :: rest -> is_white_space c = false.
Proof.
  induction s as [|d s IH]; simpl; [discriminate |].
  destruct (is_white_space d) eqn:Hd; auto.
  intros E. injection E as -> _. exact Hd.
Qed.

Lemma trimEnd_decompose (s : jsstring) :
  exists r : jsstring,
    s = trimEnd s ++ r /\ forallb is_white_space r = true.
Proof.
  induction s as [|c s (r & Hs & Hr)]; simpl.
  - exists []. auto.
  - destruct (trimEnd s) as [|d t] eqn:Ht.
    + destruct (is_white_space c) eqn:Hc.
      * exists (c :: r). simpl in *. rewrite Hc, Hr. split; [congruence | reflexivity].
      * exists r. simpl in *. split; [congruence | exact Hr].
    + exists r. split; [simpl in *; congruence | exact Hr].
Qed.

Lemma trimEnd_last (s init : jsstring) (c : N) :
  trimEnd s = init ++ [c] -> is_white_space c = false.
Proof.
  revert init. induction s as [|d s IH]; intros init; simpl.
  - destruct init; discriminate.
  - destruct (trimEnd s) as [|e t] eqn:Ht.
    + destruct (is_white_space d) eqn:Hd.
      * destruct init; discriminate.
      * destruct init as [|i [|j init]]; simpl; intros E; try discriminate.
        injection E as <-. exact Hd.
    + destruct init as [|i init]; simpl; intros E.
      * discriminate.
      * injection E as _ E. apply (IH init). exact E.
Qed.

Lemma trimEnd_head (s : jsstring) (c : N) (rest : jsstring) :
  trimEnd s = c :: rest -> exists rest', s = c :: rest'.
Proof.
  destruct s as [|d s]; simpl; [discriminate |].
  destruct (trimEnd s); [destruct (is_white_space d) |];
    intros E; try discriminate; injection E as -> _; eauto.
Qed.

(** [trim] takes a run of white space off each end and leaves a text that
    neither begins nor ends with white space. *)
Lemma trim_decompose (s : jsstring) :
  exists l r : jsstring,
    s = l ++ trim s ++ r /\
    forallb is_white_space l = true /\
    forallb is_white_space r = true.
Proof.
  destruct (trimStart_decompose s) as (l & Hs & Hl).
  destruct (trimEnd_decompose (trimStart s)) as (r & Ht & Hr).
  exists l, r. unfold trim. rewrite <- Ht. auto.
Qed.

Lemma trim_first (s : jsstring) (c : N) (rest : jsstring) :
  trim s = c :: rest -> is_white_space c = false.
Proof.
  unfold trim. intros E.
  destruct (trimEnd_head _ E) as [rest' E'].
  exact (trimStart_head _ E').
Qed.

Lemma trim_last (s init : jsstring) (c : N) :
  trim s = init ++ [c] -> is_white_space c = false.
Proof. unfold trim. apply trimEnd_last. Qed.

(** ** The framing check *)

Lemma frame_ok_iff (data : jsstring) :
  frame_ok data = true <->
  4 <= List.length data /\
  nth_error data 0 = Some (code_unit "$") /\
  nth_error data (List.length data - 3) = Some (code_unit "*").
Proof.
  unfold frame_ok. rewrite andb_true_iff.
  change (str "$") with [code_unit "$"]. change (str "*") with [code_unit "*"].
  rewrite startsWith_unit, charAt_unit. unfold JsString.length.
  split.
  - intros (H0 & Hpos & H3).
    replace (Z.to_nat (Z.of_nat (List.length data) - 3))
      with (List.length data - 3) in H3 by lia.
    repeat split; auto.
    destruct (Nat.eq_dec (List.length data) 3) as [E|NE].
    + rewrite E in H3. change (3 - 3) with 0 in H3.
      rewrite H0 in H3. discriminate.
    + lia.
  - intros (Hlen & H0 & H3). repeat split; auto; try lia.
    replace (Z.to_nat (Z.of_nat (List.length data) - 3))
      with (List.length data - 3) by lia.
    exact H3.
Qed.

(** ** The forwarding handler *)

(** The handler branches on [isForwardable]. *)
Lemma nmeaHandler_unfold (env : Env) (sentence : jsstring) :
  nmeaHandler env sentence =
  if isForwardable sentence then
    (w <- get ;;
     modify (set_forwardedCounter (forwardedCounter w + 1)) ;;
     w <- get ;;
     match serial w with
     | Some p => serial_write env p (trim sentence +++ crlf)
     | None => ret tt
     end)
  else ret tt.
Proof. reflexivity. Qed.

Lemma nmeaHandler_reject (env : Env) (sentence : jsstring) (w : World) :
  isForwardable sentence = false ->
  nmeaHandler env sentence w = mkRes w [] (Normal tt).
Proof.
  intros H. rewrite nmeaHandler_unfold, H. reflexivity.
Qed.

Lemma nmeaHandler_accept_null (env : Env) (sentence : jsstring) (w : World) :
  isForwardable sentence = true ->
  serial w = None ->
  nmeaHandler env sentence w =
  mkRes (set_forwardedCounter (forwardedCounter w + 1) w) [] (Normal tt).
Proof.
  intros H Hs. rewrite nmeaHandler_unfold, H.
  unfold bind, get, modify; simpl. rewrite Hs. reflexivity.
Qed.

Lemma nmeaHandler_accept_port (env : Env) (sentence : jsstring) (w : World) (p : nat) :
  isForwardable sentence = true ->
  serial w = Some p ->
  nmeaHandler env sentence w =
  mkRes (set_forwardedCounter (forwardedCounter w + 1) w)
        [SerialWrite p (trim sentence +++ crlf)]
        (match env (SerialWriteCall p (trim sentence +++ crlf)) with
         | Some err => Throw err
         | None => Normal tt
         end).
Proof.
  intros H Hs. rewrite nmeaHandler_unfold, H.
  unfold bind, get, modify; simpl. rewrite Hs.
  unfold serial_write, external, bind, emit; simpl.
  destruct (env _); reflexivity.
Qed.

Lemma nmeaHandler_counter (env : Env) (sentence : jsstring) (w : World) :
  forwardedCounter (res_world (nmeaHandler env sentence w)) =
  (forwardedCounter w + if isForwardable sentence then 1 else 0)%N.
Proof.
  destruct (isForwardable sentence) eqn:H.
  - destruct (serial w) as [p|] eqn:Hs.
    + rewrite (nmeaHandler_accept_port env _ _ H Hs). reflexivity.
    + rewrite (nmeaHandler_accept_null env _ _ H Hs). reflexivity.
  - rewrite (nmeaHandler_reject env _ _ H). simpl. lia.
Qed.

Lemma deliver_counter (events : list (Env * jsstring)) (w : World) :
  forwardedCounter (fst (deliver events w)) =
  (forwardedCounter w + N.of_nat (count_forwardable events))%N.
Proof.
  revert w. induction events as [|[env s] rest IH]; intros w.
  - simpl. lia.
  - simpl. specialize (IH (res_world (nmeaHandler env s w))).
    destruct (deliver rest (res_world (nmeaHandler env s w))) as [w' outs].
    simpl in *. rewrite IH, nmeaHandler_counter.
    unfold count_forwardable. simpl.
    destruct (isForwardable s); simpl; fold (count_forwardable rest); lia.
Qed.

Lemma nmeaHandler_serial (env : Env) (sentence : jsstring) (w : World) :
  serial (res_world (nmeaHandler env sentence w)) = serial w.
Proof.
  destruct (isForwardable sentence) eqn:H.
  - destruct (serial w) as [p|] eqn:Hs.
    + rewrite (nmeaHandler_accept_port env _ _ H Hs). exact Hs.
    + rewrite (nmeaHandler_accept_null env _ _ H Hs). exact Hs.
  - rewrite (nmeaHandler_reject env _ _ H). reflexivity.
Qed.

Lemma deliver_out (events : list (Env * jsstring)) (w : World) (p : nat) :
  serial w = Some p ->
  snd (deliver events w) =
  map (fun e => SerialWrite p (trim (snd e) +++ crlf))
      (filter (fun e => isForwardable (snd e)) events).
Proof.
  revert w. induction events as [|[env s] rest IH]; intros w Hs; [reflexivity |].
  simpl.
  assert (Hs' : serial (res_world (nmeaHandler env s w)) = Some p)
    by (rewrite nmeaHandler_serial; exact Hs).
  specialize (IH _ Hs').
  destruct (deliver rest (res_world (nmeaHandler env s w))) as [w' outs].
  simpl in *. subst outs.
  destruct (isForwardable s) eqn:H.
  - rewrite (nmeaHandler_accept_port env _ _ H Hs). reflexivity.
  - rewrite (nmeaHandler_reject env _ _ H). reflexivity.
Qed.

Lemma reporter_run (w : World) :
  reporter w =
  mkRes (set_forwardedCounter 0 w)
        [PluginStatus (str "Forwarded " +++ number_to_string (forwardedCounter w)
                         +++ str " NMEA0183 messages.")]
        (Normal tt).
Proof. reflexivity. Qed.

(** C1: a sentence is accepted exactly when its trimmed text [data] has at
    least four code units, begins with [$] and has [*] third from the end;
    nothing else about the text matters.  Accepted means that the condition
    of the handler's [if] holds, which is when the handler counts the
    sentence. *)
Theorem isForwardable_iff_framing (sentence : jsstring) :
  let data := trim sentence in
  let len := List.length data in
  (isForwardable sentence = true <->
   4 <= len /\
   nth_error data 0 = Some (code_unit "$") /\
   nth_error data (len - 3) = Some (code_unit "*")) /\
  (forall (env : Env) (w : World),
      forwardedCounter (res_world (nmeaHandler env sentence w))
        = (forwardedCounter w + 1)%N <->
      4 <= len /\
      nth_error data 0 = Some (code_unit "$") /\
      nth_error data (len - 3) = Some (code_unit "*")).
Proof.
  intros data len.
  assert (H : isForwardable sentence = true <->
              4 <= len /\
              nth_error data 0 = Some (code_unit "$") /\
              nth_error data (len - 3) = Some (code_unit "*"))
    by (unfold isForwardable; apply frame_ok_iff).
  split; [exact H |].
  intros env w. rewrite <- H, nmeaHandler_counter.
  destruct (isForwardable sentence); split; intros E; try reflexivity; try discriminate.
  lia.
Qed.

Lemma isForwardable_iff_framing_witness :
  isForwardable (str "  $GPRMC,...*5B  ") = true /\
  nth_error (trim (str "  $GPRMC,...*5B  ")) 0 = Some (code_unit "$") /\
  nth_error (trim (str "  $GPRMC,...*5B  ")) 10 = Some (code_unit "*").
Proof.
  assert (E : isForwardable (str "  $GPRMC,...*5B  ") = true) by reflexivity.
  split; [exact E |].
  destruct (isForwardable_iff_framing (str "  $GPRMC,...*5B  ")) as [H _].
  destruct (proj1 H E) as (_ & H0 & H3).
  split; [exact H0 | exact H3].
Defined.

(** C2: a sentence whose trimmed text is shorter than four code units is
    rejected: the handler leaves the world as it is, hands nothing out and
    returns normally.  The character access at [len - 3] is no error: below
    three code units it is out of range and yields the empty string. *)
Theorem short_sentence_rejected (sentence : jsstring) :
  List.length (trim sentence) < 4 ->
  isForwardable sentence = false /\
  (forall (env : Env) (w : World),
      nmeaHandler env sentence w = mkRes w [] (Normal tt)) /\
  ((JsString.length (trim sentence) - 3 < 0)%Z ->
   charAt (trim sentence) (JsString.length (trim sentence) - 3) = []).
Proof.
  intros Hlen.
  assert (Hrej : isForwardable sentence = false).
  { destruct (isForwardable sentence) eqn:H; auto.
    unfold isForwardable in H. apply frame_ok_iff in H. lia. }
  repeat split.
  - exact Hrej.
  - intros env w. apply nmeaHandler_reject, Hrej.
  - intros Hneg. apply charAt_out_of_range. lia.
Qed.

Lemma short_sentence_rejected_witness :
  List.length (trim (str " $*1 ")) < 4 /\
  isForwardable (str " $*1 ") = false /\
  (forall (env : Env) (w : World),
      nmeaHandler env (str " $*1 ") w = mkRes w [] (Normal tt)) /\
  ((JsString.length (trim (str " $*1 ")) - 3 < 0)%Z ->
   charAt (trim (str " $*1 ")) (JsString.length (trim (str " $*1 ")) - 3) = []).
Proof.
  split.
  - vm_compute. lia.
  - apply (short_sentence_rejected (str " $*1 ")). vm_compute. lia.
Defined.

(** C3: take any world and let the reporter tick, so that the counter reads
    0.  Deliver sentences to the handler, [k] of which pass the framing check
    and the others not, whatever the serial library does meanwhile.  The next
    tick publishes exactly "Forwarded k NMEA0183 messages." and leaves the
    counter at 0. *)
Theorem counter_round_trip (w0 : World) (events : list (Env * jsstring)) (k : nat) :
  count_forwardable events = k ->
  let w1 := res_world (reporter w0) in
  let w2 := fst (deliver events w1) in
  forwardedCounter w1 = 0%N /\
  res_out (reporter w2) =
    [PluginStatus (str "Forwarded " +++ number_to_string (N.of_nat k)
                     +++ str " NMEA0183 messages.")] /\
  res_val (reporter w2) = Normal tt /\
  forwardedCounter (res_world (reporter w2)) = 0%N.
Proof.
  intros Hk w1 w2.
  assert (H1 : forwardedCounter w1 = 0%N) by reflexivity.
  assert (H2 : forwardedCounter w2 = N.of_nat k).
  { unfold w2. rewrite deliver_counter, H1, Hk. reflexivity. }
  repeat split; auto.
  rewrite reporter_run. simpl. rewrite H2. reflexivity.
Qed.

Lemma counter_round_trip_witness :
  count_forwardable sample_events = 3 /\
  res_out (reporter (fst (deliver sample_events (res_world (reporter initial))))) =
    [PluginStatus (str "Forwarded 3 NMEA0183 messages.")] /\
  forwardedCounter
    (res_world (reporter (fst (deliver sample_events (res_world (reporter initial))))))
  = 0%N.
Proof.
  assert (Hk : count_forwardable sample_events = 3) by reflexivity.
  destruct (counter_round_trip initial sample_events Hk) as (_ & Hout & _ & Hzero).
  split; [exact Hk | split; [exact Hout | exact Hzero]].
Defined.

(** C7: while [serial] holds a port, a sentence that passes the framing
    check leads to exactly one [serial.write], and the data handed over is
    the trimmed sentence followed by CR LF; nothing else leaves the handler.
    Over a run of deliveries the writes are, in the order of arrival, one per
    accepted sentence. *)
Theorem wire_format (w : World) (p : nat) :
  serial w = Some p ->
  (forall (env : Env) (sentence : jsstring),
      isForwardable sentence = true ->
      res_out (nmeaHandler env sentence w) =
        [SerialWrite p (trim sentence +++ [13; 10]%N)] /\
      writes (res_out (nmeaHandler env sentence w)) = 1) /\
  (forall events : list (Env * jsstring),
      snd (deliver events w) =
      map (fun e => SerialWrite p (trim (snd e) +++ [13; 10]%N))
          (filter (fun e => isForwardable (snd e)) events)).
Proof.
  intros Hs. split.
  - intros env sentence H.
    rewrite (nmeaHandler_accept_port env _ _ H Hs). split; reflexivity.
  - intros events. apply deliver_out, Hs.
Qed.

Lemma wire_format_witness :
  serial started = Some 0 /\
  isForwardable sample_sentence = true /\
  res_out (nmeaHandler quiet sample_sentence started) =
    [SerialWrite 0 (str "$IIVWR,,,,,,,*hh" +++ [13; 10]%N)] /\
  snd (deliver sample_events started) =
    [SerialWrite 0 (str "$IIVWR,,,,,,,*hh" +++ [13; 10]%N);
     SerialWrite 0 (str "$GPRMC,...*5B" +++ [13; 10]%N);
     SerialWrite 0 (str "$GPGGA,1*1A" +++ [13; 10]%N)].
Proof.
  assert (Hs : serial started = Some 0) by reflexivity.
  destruct (wire_format started Hs) as [Hone Hrun].
  split; [exact Hs |].
  split; [reflexivity |].
  split.
  - apply (Hone quiet sample_sentence). reflexivity.
  - exact (Hrun sample_events).
Defined.

(** C8: a sentence that fails the framing check is dropped in silence: the
    world, and so the counter, is unchanged, no write, status or error leaves
    the handler, and it returns normally. *)
Theorem malformed_silently_dropped (env : Env) (sentence : jsstring) (w : World) :
  isForwardable sentence = false ->
  nmeaHandler env sentence w = mkRes w [] (Normal tt) /\
  forwardedCounter (res_world (nmeaHandler env sentence w)) = forwardedCounter w /\
  res_out (nmeaHandler env sentence w) = [] /\
  res_val (nmeaHandler env sentence w) = Normal tt.
Proof.
  intros H. rewrite (nmeaHandler_reject env _ _ H). repeat split.
Qed.

Lemma malformed_silently_dropped_witness :
  isForwardable (str "no-dollar*1A") = false /\
  nmeaHandler quiet (str "no-dollar*1A") started =
    mkRes started [] (Normal tt).
Proof.
  split; [reflexivity |].
  apply (@malformed_silently_dropped quiet (str "no-dollar*1A") started).
  reflexivity.
Defined.

(** C10: every sentence that passes the framing check adds one to the
    counter, with or without a port and whether or not the write throws.
    With [serial] null nothing is written, so the number the reporter then
    publishes is larger than the number of writes. *)
Theorem counter_counts_unwritten (env : Env) (sentence : jsstring) (w : World) :
  isForwardable sentence = true ->
  let r := nmeaHandler env sentence w in
  forwardedCounter (res_world r) = (forwardedCounter w + 1)%N /\
  (serial w = None ->
   writes (res_out r) = 0 /\
   res_out (reporter (res_world r)) =
     [PluginStatus (str "Forwarded " +++ number_to_string (forwardedCounter w + 1)
                      +++ str " NMEA0183 messages.")]).
Proof.
  intros H r. split.
  - unfold r. rewrite nmeaHandler_counter, H. reflexivity.
  - intros Hs. unfold r. rewrite (nmeaHandler_accept_null env _ _ H Hs).
    split; reflexivity.
Qed.

Lemma counter_counts_unwritten_witness :
  isForwardable sample_sentence = true /\
  serial initial = None /\
  forwardedCounter (res_world (nmeaHandler quiet sample_sentence initial)) = 1%N /\
  writes (res_out (nmeaHandler quiet sample_sentence initial)) = 0 /\
  res_out (reporter (res_world (nmeaHandler quiet sample_sentence initial))) =
    [PluginStatus (str "Forwarded 1 NMEA0183 messages.")].
Proof.
  assert (H : isForwardable sample_sentence = true) by reflexivity.
  destruct (@counter_counts_unwritten quiet sample_sentence initial H) as [Hc Hw].
  destruct (Hw eq_refl) as [Hw0 Hrep].
  repeat split; assumption.
Defined.

(** ** Start *)

Lemma bind_val {A B : Type} (m : M A) (f : A -> M B) (w : World) :
  res_val (bind m f w) =
  match res_val (m w) with
  | Normal a => res_val (f a (res_world (m w)))
  | Throw err => Throw err
  end.
Proof. unfold bind. destruct (res_val (m w)); reflexivity. Qed.

Lemma bind_world {A B : Type} (m : M A) (f : A -> M B) (w : World) :
  res_world (bind m f w) =
  match res_val (m w) with
  | Normal a => res_world (f a (res_world (m w)))
  | Throw _ => res_world (m w)
  end.
Proof. unfold bind. destruct (res_val (m w)); reflexivity. Qed.

Lemma bind_out {A B : Type} (m : M A) (f : A -> M B) (w : World) :
  res_out (bind m f w) =
  match res_val (m w) with
  | Normal a => res_out (m w) ++ res_out (f a (res_world (m w)))
  | Throw _ => res_out (m w)
  end.
Proof. unfold bind. destruct (res_val (m w)); reflexivity. Qed.

Lemma new_SerialPort_run (env : Env) (path : option jsstring) (baud : N) (w : World) :
  new_SerialPort env path baud w =
  match env (NewSerialPort path baud) with
  | Some err => mkRes w [] (Throw err)
  | None =>
      mkRes (set_ports (ports w ++
               [{| sp_path := path; sp_baudRate := baud;
                   isOpen := false; sp_listeners := [] |}]) w)
            [] (Normal (List.length (ports w)))
  end.
Proof.
  unfold new_SerialPort, external, bind.
  destruct (env (NewSerialPort path baud)); reflexivity.
Qed.

Lemma serial_on_run (env : Env) (p : nat) (event : jsstring) (l : PortListener)
      (w : World) :
  serial_on env p event l w =
  match env (SerialOn p event) with
  | Some err => mkRes w [] (Throw err)
  | None => mkRes (set_ports (update p (add_listener l) (ports w)) w) [] (Normal tt)
  end.
Proof.
  unfold serial_on, external, bind.
  destruct (env (SerialOn p event)); reflexivity.
Qed.

Lemma app_on_run (env : Env) (event : jsstring) (w : World) :
  app_on env event w =
  match env (AppOn event) with
  | Some err => mkRes w [] (Throw err)
  | None => mkRes (set_bus (bus w ++ [event]) w) [] (Normal tt)
  end.
Proof.
  unfold app_on, external, bind.
  destruct (env (AppOn event)); reflexivity.
Qed.

Lemma setInterval_run (env : Env) (ms : N) (w : World) :
  setInterval env ms w =
  match env (SetInterval ms) with
  | Some err => mkRes w [] (Throw err)
  | None =>
      mkRes (set_timers (timers w ++ [{| period := ms; active := true |}]) w)
            [] (Normal (List.length (timers w)))
  end.
Proof.
  unfold setInterval, external, bind.
  destruct (env (SetInterval ms)); reflexivity.
Qed.

Lemma modify_run (f : World -> World) (w : World) :
  modify f w = mkRes (f w) [] (Normal tt).
Proof. reflexivity. Qed.

(** One statement of the [try] block: run it, split on whether the library
    call throws, and go on with the rest. *)
Ltac start_step :=
  rewrite bind_val;
  first [ rewrite new_SerialPort_run | rewrite serial_on_run
        | rewrite app_on_run | rewrite setInterval_run | rewrite modify_run ];
  try match goal with
      | |- context [res_val (match ?env ?c with Some _ => _ | None => _ end)] =>
          destruct (env c)
      end;
  cbn [res_val res_world first_throw]; try reflexivity.

Lemma start_try_val (env : Env) (settings : PluginSettings) (w : World) :
  res_val (start_try env settings w) =
  match first_throw env (start_calls settings (List.length (ports w))) with
  | Some err => Throw err
  | None => Normal tt
  end.
Proof.
  unfold start_try, start_calls. cbn [first_throw].
  do 8 start_step.
Qed.

Lemma start_val (env : Env) (settings : PluginSettings) (w : World) :
  res_val (start env settings w) = Normal tt.
Proof.
  unfold start. rewrite bind_val. cbn [app_debug emit res_val res_world].
  unfold try_catch. destruct (res_val (start_try env settings w)) as [[]|err] eqn:E.
  - exact E.
  - reflexivity.
Qed.

Lemma start_out_caught (env : Env) (settings : PluginSettings) (w : World) (err : jsexn) :
  res_val (start_try env settings w) = Throw err ->
  res_out (start env settings w) =
  (Debug (plugin_id +++ str " starting...") :: res_out (start_try env settings w))
    ++ [PluginError (str "Error starting plugin: " +++ render_message err)].
Proof.
  intros E. unfold start. rewrite bind_out.
  cbn [app_debug emit res_val res_world res_out].
  unfold try_catch. rewrite E. reflexivity.
Qed.

(** C5: [start] never lets an exception out, whatever the libraries do.  When
    a call of the [try] block (the [SerialPort] constructor, one of the two
    [serial.on], one of the two [anyApp.on], [setInterval]) throws [err], the
    last thing [start] does is publish the error status
    "Error starting plugin: " followed by [err?.message]. *)
Theorem start_catches (env : Env) (settings : PluginSettings) (w : World) :
  res_val (start env settings w) = Normal tt /\
  forall err : jsexn,
    first_throw env (start_calls settings (List.length (ports w))) = Some err ->
    exists before : list output,
      res_out (start env settings w) =
        before ++ [PluginError (str "Error starting plugin: " +++
                                  match message err with
                                  | Some m => m
                                  | None => str "undefined"
                                  end)].
Proof.
  split.
  - apply start_val.
  - intros err H.
    assert (E : res_val (start_try env settings w) = Throw err)
      by (rewrite start_try_val, H; reflexivity).
    eexists. rewrite (start_out_caught _ _ _ E). reflexivity.
Qed.

Lemma start_catches_witness :
  first_throw (broken_timer (Thrown (Some (str "boom"))))
              (start_calls sample_settings (List.length (ports initial)))
    = Some (Thrown (Some (str "boom"))) /\
  res_val (start (broken_timer (Thrown (Some (str "boom")))) sample_settings initial)
    = Normal tt /\
  exists before : list output,
    res_out (start (broken_timer (Thrown (Some (str "boom")))) sample_settings initial)
    = before ++ [PluginError (str "Error starting plugin: boom")].
Proof.
  split; [reflexivity |].
  destruct (start_catches (broken_timer (Thrown (Some (str "boom"))))
                          sample_settings initial) as [Hval Hout].
  split; [exact Hval |].
  exact (Hout (Thrown (Some (str "boom"))) eq_refl).
Defined.

(** ** Stop *)

Lemma update_idempotent {A : Type} (f : A -> A) (i : nat) (l : list A) :
  (forall x, f (f x) = f x) ->
  update i f (update i f l) = update i f l.
Proof.
  intros Hf. revert i.
  induction l as [|x l IH]; intros [|i]; simpl; f_equal; auto.
Qed.

Lemma nth_error_update_same {A : Type} (f : A -> A) (i : nat) (l : list A) :
  nth_error (update i f l) i = option_map f (nth_error l i).
Proof.
  revert i. induction l as [|x l IH]; intros [|i]; simpl; auto.
Qed.

Lemma nth_error_update_other {A : Type} (f : A -> A) (i j : nat) (l : list A) :
  i <> j ->
  nth_error (update i f l) j = nth_error l j.
Proof.
  revert i j.
  induction l as [|x l IH]; intros [|i] [|j] H; simpl; auto; congruence.
Qed.

Lemma length_update {A : Type} (f : A -> A) (i : nat) (l : list A) :
  List.length (update i f l) = List.length l.
Proof.
  revert i. induction l as [|x l IH]; intros [|i]; simpl; auto.
Qed.

Lemma stop_run (w : World) :
  stop w = mkRes (set_timers (timers_after_stop w) w) [stopped_status] (Normal tt).
Proof.
  unfold stop, timers_after_stop, bind, get, clearInterval, app_setPluginStatus.
  cbn. destruct (reportInterval w); cbn; [reflexivity|].
  destruct w; reflexivity.
Qed.

Lemma timers_after_stop_twice (w : World) :
  timers_after_stop (set_timers (timers_after_stop w) w) = timers_after_stop w.
Proof.
  unfold timers_after_stop. cbn.
  destruct (reportInterval w); [|reflexivity].
  apply update_idempotent. intros []; reflexivity.
Qed.

Lemma set_timers_twice (a b : list Timer) (w : World) :
  set_timers a (set_timers b w) = set_timers a w.
Proof. reflexivity. Qed.

Lemma stop_stop (w : World) :
  stop (res_world (stop w)) =
  mkRes (res_world (stop w)) [stopped_status] (Normal tt).
Proof.
  rewrite !stop_run. cbn [res_world].
  rewrite timers_after_stop_twice, set_timers_twice. reflexivity.
Qed.

Lemma stops_run (n : nat) (w : World) :
  stops (S n) w = mkRes (res_world (stop w)) (repeat stopped_status (S n)) (Normal tt).
Proof.
  revert w. induction n as [|n IH]; intros w.
  - cbn [stops]. unfold bind. rewrite stop_run. reflexivity.
  - change (stops (S (S n)) w) with (bind stop (fun _ => stops (S n)) w).
    unfold bind.
    pose proof (stop_run w) as Hs. pose proof (stop_stop w) as Hss.
    destruct (stop w) as [w1 o1 v1]. cbn [res_world] in Hss.
    injection Hs as _ Ho Hv. subst o1 v1. cbn [res_val res_world res_out].
    rewrite IH, Hss. reflexivity.
Qed.

(** C6: [stop] never throws, with or without a timer handle.  A second
    [stop] right after a first changes nothing in the world and only
    publishes the stopped status again; the same holds for any number of
    calls in a row.  With [reportInterval] null (start never ran, or failed
    before the timer was set) [stop] changes nothing at all. *)
Theorem stop_idempotent (w : World) :
  res_val (stop w) = Normal tt /\
  stop (res_world (stop w)) =
    mkRes (res_world (stop w))
          [PluginStatus (str "NMEA0183 to Serial Port Forwarder stopped.")]
          (Normal tt) /\
  (forall n : nat,
      res_val (stops (S n) w) = Normal tt /\
      res_world (stops (S n) w) = res_world (stop w) /\
      res_out (stops (S n) w) =
        repeat (PluginStatus (str "NMEA0183 to Serial Port Forwarder stopped.")) (S n)) /\
  (reportInterval w = None -> res_world (stop w) = w).
Proof.
  split; [rewrite stop_run; reflexivity |].
  split; [apply stop_stop |].
  split.
  - intros n. rewrite stops_run. repeat split.
  - intros H. rewrite stop_run. unfold timers_after_stop. rewrite H.
    destruct w; reflexivity.
Qed.

Lemma stop_idempotent_witness :
  reportInterval
    (res_world (start (broken_constructor (Thrown None)) sample_settings initial))
    = None /\
  res_world
    (stop (res_world (start (broken_constructor (Thrown None)) sample_settings initial)))
  = res_world (start (broken_constructor (Thrown None)) sample_settings initial).
Proof.
  split; [reflexivity |].
  apply (stop_idempotent
           (res_world (start (broken_constructor (Thrown None)) sample_settings initial))).
  reflexivity.
Defined.

(** C9: [stop] publishes the stopped status and returns; in the world it
    touches one thing, the timer [reportInterval] refers to, which becomes
    inactive.  The three module variables keep their values (the counter is
    not reset, [reportInterval] itself is not cleared), every port object is
    as before, so the port is not closed, the bus subscriptions stay, and
    every other timer is as before. *)
Theorem stop_frame (w : World) :
  let w' := res_world (stop w) in
  res_out (stop w) = [PluginStatus (str "NMEA0183 to Serial Port Forwarder stopped.")] /\
  res_val (stop w) = Normal tt /\
  reportInterval w' = reportInterval w /\
  forwardedCounter w' = forwardedCounter w /\
  serial w' = serial w /\
  ports w' = ports w /\
  transport_open w' = transport_open w /\
  bus w' = bus w /\
  List.length (timers w') = List.length (timers w) /\
  (forall i : nat,
      reportInterval w <> Some i ->
      nth_error (timers w') i = nth_error (timers w) i) /\
  (forall t : nat,
      reportInterval w = Some t ->
      nth_error (timers w') t = option_map cancel (nth_error (timers w) t)).
Proof.
  intros w'. unfold w'. rewrite stop_run. cbn [res_world res_out res_val].
  repeat split.
  - unfold timers_after_stop. cbn. destruct (reportInterval w); auto using length_update.
  - intros i Hi. unfold timers_after_stop. cbn.
    destruct (reportInterval w) as [t|]; auto.
    apply nth_error_update_other. congruence.
  - intros t Ht. unfold timers_after_stop. cbn. rewrite Ht.
    apply nth_error_update_same.
Qed.

Lemma stop_frame_witness :
  reportInterval started = Some 0 /\
  nth_error (timers (res_world (stop started))) 0 =
    Some {| period := 20000; active := false |} /\
  forwardedCounter (res_world (stop started)) = forwardedCounter started /\
  ports (res_world (stop started)) = ports started.
Proof.
  destruct (stop_frame started)
    as (_ & _ & _ & Hc & _ & Hp & _ & _ & _ & _ & Ht).
  split; [reflexivity |].
  split; [exact (Ht 0 eq_refl) |].
  split; [exact Hc | exact Hp].
Defined.

(** ** Writing while the port is not open *)

(** Counterexample to C4 as stated.  After a [start] in which nothing throws
    the module holds a port object that is not open yet, and that stays so
    when the device fails to open.  A sentence that passes the framing check
    is then still handed to [serial.write]: the handler asks whether [serial]
    is set, not whether the port is open. *)
Lemma write_skip_counterexample :
  transport_open started = false /\
  isForwardable sample_sentence = true /\
  res_out (nmeaHandler quiet sample_sentence started) =
    [SerialWrite 0 (str "$IIVWR,,,,,,,*hh" +++ crlf)] /\
  writes (res_out (nmeaHandler quiet sample_sentence started)) <> 0.
Proof.
  repeat split; try reflexivity. vm_compute. discriminate.
Qed.

(** C4, as the code has it: with [serial] null (no port object was built) a
    sentence that passes the framing check is counted, nothing is written and
    nothing is thrown, whatever the library would do.  With a port object in
    [serial], open or not, the sentence is counted and handed to
    [serial.write] once. *)
Theorem write_skipped_without_handle (env : Env) (sentence : jsstring) (w : World) :
  isForwardable sentence = true ->
  (serial w = None ->
   res_out (nmeaHandler env sentence w) = [] /\
   res_val (nmeaHandler env sentence w) = Normal tt /\
   forwardedCounter (res_world (nmeaHandler env sentence w))
     = (forwardedCounter w + 1)%N /\
   res_world (nmeaHandler env sentence w)
     = set_forwardedCounter (forwardedCounter w + 1) w) /\
  (forall p : nat,
      serial w = Some p ->
      res_out (nmeaHandler env sentence w) = [SerialWrite p (trim sentence +++ crlf)] /\
      forwardedCounter (res_world (nmeaHandler env sentence w))
        = (forwardedCounter w + 1)%N).
Proof.
  intros H. split.
  - intros Hs. rewrite (nmeaHandler_accept_null env _ _ H Hs). repeat split.
  - intros p Hs. rewrite (nmeaHandler_accept_port env _ _ H Hs). split; reflexivity.
Qed.

Lemma write_skipped_without_handle_witness :
  isForwardable sample_sentence = true /\
  serial initial = None /\
  res_out (nmeaHandler (fun _ => Some (Thrown None)) sample_sentence initial) = [] /\
  res_val (nmeaHandler (fun _ => Some (Thrown None)) sample_sentence initial) = Normal tt /\
  forwardedCounter
    (res_world (nmeaHandler (fun _ => Some (Thrown None)) sample_sentence initial))
  = 1%N.
Proof.
  split; [reflexivity | split; [reflexivity |]].
  destruct (@write_skipped_without_handle
              (fun _ => Some (Thrown None)) sample_sentence initial eq_refl) as [H _].
  destruct (H eq_refl) as (Hout & Hval & Hcount & _).
  split; [exact Hout | split; [exact Hval | exact Hcount]].
Defined.

(** ** Scenarios *)

(** The port opens after [start]: the 'open' listener publishes the status
    with the configured path and baud rate. *)
Example port_opened_status :
  res_out (port_opened 0 started) =
    [PluginStatus (str "Opened serial port /dev/test0 with baudrate 4800.")] /\
  transport_open (res_world (port_opened 0 started)) = true.
Proof. split; reflexivity. Qed.

(** A baud rate of 10^21 is printed as the template literal prints it. *)
Example port_opened_status_large_baudRate :
  res_out (port_opened 0
             (res_world (start quiet {| baudRate := Some (10 ^ 21)%N;
                                        serialPort := Some (str "/dev/test0") |}
                               initial))) =
    [PluginStatus (str "Opened serial port /dev/test0 with baudrate 1e+21.")].
Proof. vm_compute. reflexivity. Qed.

(** A port error is published and leaves the module holding the port. *)
Example port_error_status :
  res_out (port_error 0 (str "Error: No such file") started) =
    [PluginStatus (str "Serial port error: Error: No such file.")] /\
  serial (res_world (port_error 0 (str "Error: No such file") started)) = Some 0.
Proof. split; reflexivity. Qed.

(** Start, the port opens, one sentence arrives: one write of the sentence
    followed by CR LF, and the counter reads 1 before the next tick. *)
Example end_to_end :
  let w := res_world (port_opened 0 started) in
  res_out (nmeaHandler quiet sample_sentence w) =
    [SerialWrite 0 (str "$IIVWR,,,,,,,*hh" +++ crlf)] /\
  forwardedCounter (res_world (nmeaHandler quiet sample_sentence w)) = 1%N.
Proof. split; reflexivity. Qed.

(** The report timer ticks while it is active and is silent once [stop] has
    run. *)
Example tick_before_and_after_stop :
  res_out (tick 0 started) = [PluginStatus (str "Forwarded 0 NMEA0183 messages.")] /\
  res_out (tick 0 (res_world (stop started))) = [].
Proof. split; reflexivity. Qed.

(** A constructor that throws leaves [serial] and [reportInterval] null and
    subscribes nothing. *)
Example start_with_broken_constructor :
  res_world (start (broken_constructor (Thrown (Some (str "bad path"))))
                   sample_settings initial) = initial /\
  res_out (start (broken_constructor (Thrown (Some (str "bad path"))))
                 sample_settings initial) =
    [Debug (str "signalk-nmea0183-to-serial starting...");
     PluginError (str "Error starting plugin: bad path")].
Proof. split; reflexivity. Qed.

(** A start in which nothing throws ends with the status "Started". *)
Example start_quiet_outputs :
  res_out (start quiet sample_settings initial) =
    [Debug (str "signalk-nmea0183-to-serial starting...");
     PluginStatus (str "Started")].
Proof. reflexivity. Qed.

(** * Further properties of the plugin *)

(** ** White space around a sentence *)

Lemma trimStart_ws (l : jsstring) :
  forallb is_white_space l = true -> trimStart l = [].
Proof.
  induction l as [|c l IH]; simpl; [reflexivity |].
  intros H. apply andb_true_iff in H as [Hc Hl]. rewrite Hc. auto.
Qed.

Lemma trimStart_app_ws (l x : jsstring) :
  forallb is_white_space l = true -> trimStart (l ++ x) = trimStart x.
Proof.
  induction l as [|c l IH]; simpl; [reflexivity |].
  intros H. apply andb_true_iff in H as [Hc Hl]. rewrite Hc. auto.
Qed.

Lemma trimStart_nil (s : jsstring) :
  trimStart s = [] -> forallb is_white_space s = true.
Proof.
  induction s as [|c s IH]; simpl; [reflexivity |].
  destruct (is_white_space c); [exact IH | discriminate].
Qed.

Lemma trimStart_app_text (s r : jsstring) :
  trimStart s <> [] -> trimStart (s ++ r) = trimStart s ++ r.
Proof.
  induction s as [|c s IH]; simpl; [congruence |].
  destruct (is_white_space c); auto.
Qed.

Lemma trimEnd_ws (r : jsstring) :
  forallb is_white_space r = true -> trimEnd r = [].
Proof.
  induction r as [|c r IH]; simpl; [reflexivity |].
  intros H. apply andb_true_iff in H as [Hc Hr]. rewrite (IH Hr), Hc. reflexivity.
Qed.

Lemma trimEnd_app_ws (x r : jsstring) :
  forallb is_white_space r = true -> trimEnd (x ++ r) = trimEnd x.
Proof.
  intros Hr. induction x as [|c x IH]; simpl.
  - apply trimEnd_ws, Hr.
  - rewrite IH. reflexivity.
Qed.

Lemma trimEnd_fixed (x : jsstring) (b : N) :
  is_white_space b = false -> trimEnd (x ++ [b]) = x ++ [b].
Proof.
  intros Hb. induction x as [|c x IH]; simpl.
  - rewrite Hb. reflexivity.
  - rewrite IH. destruct (x ++ [b]) eqn:E; [|reflexivity].
    destruct x; discriminate.
Qed.

Lemma trimEnd_idempotent (s : jsstring) :
  trimEnd (trimEnd s) = trimEnd s.
Proof.
  destruct (trimEnd s) as [|c t] eqn:E; [reflexivity |].
  destruct (@exists_last _ (c :: t)) as (init & d & Hd); [discriminate |].
  rewrite Hd. apply trimEnd_fixed.
  apply (trimEnd_last s init). congruence.
Qed.

Lemma trim_padding (l s r : jsstring) :
  forallb is_white_space l = true ->
  forallb is_white_space r = true ->
  trim (l ++ s ++ r) = trim s.
Proof.
  intros Hl Hr. unfold trim. rewrite trimStart_app_ws by exact Hl.
  destruct (trimStart s) as [|c t] eqn:E.
  - rewrite trimStart_ws; [reflexivity |].
    rewrite forallb_app, (trimStart_nil s E), Hr. reflexivity.
  - rewrite trimStart_app_text by congruence.
    rewrite E. apply trimEnd_app_ws, Hr.
Qed.

Lemma trim_idempotent (s : jsstring) : trim (trim s) = trim s.
Proof.
  unfold trim at 1.
  assert (H : trimStart (trim s) = trim s).
  { destruct (trim s) as [|c t] eqn:E; [reflexivity |].
    simpl. rewrite (trim_first _ E). reflexivity. }
  rewrite H. unfold trim. apply trimEnd_idempotent.
Qed.

Lemma nmeaHandler_trim (env : Env) (a b : jsstring) :
  trim a = trim b -> nmeaHandler env a = nmeaHandler env b.
Proof.
  intros H. unfold nmeaHandler. rewrite H. reflexivity.
Qed.

(** X1: white space around a sentence never matters.  The handler treats a
    sentence padded on either side with white space exactly as the sentence
    itself, and a sentence exactly as its trimmed text. *)
Theorem padding_ignored (env : Env) (l s r : jsstring) :
  forallb is_white_space l = true ->
  forallb is_white_space r = true ->
  nmeaHandler env (l ++ s ++ r) = nmeaHandler env s /\
  nmeaHandler env (trim s) = nmeaHandler env s /\
  isForwardable (l ++ s ++ r) = isForwardable s.
Proof.
  intros Hl Hr. repeat split.
  - apply nmeaHandler_trim, trim_padding; assumption.
  - apply nmeaHandler_trim, trim_idempotent.
  - unfold isForwardable. rewrite trim_padding by assumption. reflexivity.
Qed.

Lemma padding_ignored_witness :
  forallb is_white_space (str "  ") = true /\
  forallb is_white_space [13; 10; 160]%N = true /\
  nmeaHandler quiet (str "  " ++ str "$GPGGA,1*1A" ++ [13; 10; 160]%N)
  = nmeaHandler quiet (str "$GPGGA,1*1A").
Proof.
  split; [reflexivity | split; [reflexivity |]].
  apply (@padding_ignored quiet (str "  ") (str "$GPGGA,1*1A") [13; 10; 160]%N);
    reflexivity.
Defined.

(** ** No checksum is verified *)

Lemma trim_fixed (body : jsstring) (c b : N) :
  is_white_space c = false ->
  is_white_space b = false ->
  trim (c :: body ++ [b]) = c :: body ++ [b].
Proof.
  intros Hc Hb. unfold trim. simpl. rewrite Hc.
  apply (trimEnd_fixed (c :: body) b Hb).
Qed.

(** X2: the framing check looks at no checksum.  Whatever stands between [$]
    and [*], and whatever two code units follow [*] (the last one not white
    space, or trimming would take it), the sentence is accepted, and with a
    port in [serial] it is written as it is, followed by CR LF. *)
Theorem checksum_not_verified (env : Env) (w : World) (body : jsstring) (a b : N) :
  is_white_space b = false ->
  let sentence := code_unit "$" :: body ++ [code_unit "*"; a; b] in
  isForwardable sentence = true /\
  forall p : nat,
    serial w = Some p ->
    res_out (nmeaHandler env sentence w) = [SerialWrite p (sentence +++ crlf)].
Proof.
  intros Hb sentence.
  assert (Ht : trim sentence = sentence).
  { unfold sentence.
    change (body ++ [code_unit "*"; a; b])
      with (body ++ [code_unit "*"; a] ++ [b]).
    rewrite app_assoc. apply trim_fixed; [reflexivity | exact Hb]. }
  assert (Hok : isForwardable sentence = true).
  { unfold isForwardable. rewrite Ht. apply frame_ok_iff.
    unfold sentence. simpl List.length. rewrite length_app. simpl List.length.
    split; [lia |]. split; [reflexivity |].
    replace (S (List.length body + 3) - 3) with (S (List.length body)) by lia.
    simpl. rewrite nth_error_app2 by lia.
    rewrite Nat.sub_diag. reflexivity. }
  split; [exact Hok |].
  intros p Hs. rewrite (nmeaHandler_accept_port env _ _ Hok Hs), Ht. reflexivity.
Qed.

Lemma checksum_not_verified_witness :
  is_white_space (code_unit "!") = false /\
  isForwardable (code_unit "$" :: str "GPGGA,bad" ++ [code_unit "*"; code_unit "?"; code_unit "!"])
  = true.
Proof.
  split; [reflexivity |].
  apply (@checksum_not_verified quiet initial (str "GPGGA,bad")
           (code_unit "?") (code_unit "!")).
  reflexivity.
Defined.

(** ** What the handler throws and what it touches *)

Lemma set_forwardedCounter_same (w : World) :
  set_forwardedCounter (forwardedCounter w + 0) w = w.
Proof. rewrite N.add_0_r. destruct w; reflexivity. Qed.

(** X3: the handler has no [try]: it throws exactly when the sentence passes
    the framing check, [serial] holds a port and [serial.write] throws, and
    then it throws what [serial.write] threw.  By then the sentence has been
    counted.  In every case the counter is the only part of the world the
    handler changes. *)
Theorem nmeaHandler_throws_iff (env : Env) (sentence : jsstring) (w : World) :
  res_world (nmeaHandler env sentence w) =
    set_forwardedCounter
      (forwardedCounter w + if isForwardable sentence then 1 else 0) w /\
  forall err : jsexn,
    res_val (nmeaHandler env sentence w) = Throw err <->
    isForwardable sentence = true /\
    exists p : nat,
      serial w = Some p /\
      env (SerialWriteCall p (trim sentence +++ crlf)) = Some err.
Proof.
  destruct (isForwardable sentence) eqn:H.
  - destruct (serial w) as [p|] eqn:Hs.
    + rewrite (nmeaHandler_accept_port env _ _ H Hs). cbn [res_world res_val].
      split; [reflexivity |]. intros err. split.
      * intros E. split; [reflexivity |]. exists p. split; [reflexivity |].
        destruct (env (SerialWriteCall p (trim sentence +++ crlf)));
          [congruence | discriminate].
      * intros (_ & q & Hq & E). injection Hq as <-. rewrite E. reflexivity.
    + rewrite (nmeaHandler_accept_null env _ _ H Hs). cbn [res_world res_val].
      split; [reflexivity |]. intros err. split; [discriminate |].
      intros (_ & q & Hq & _). discriminate.
  - rewrite (nmeaHandler_reject env _ _ H). cbn [res_world res_val].
    split; [symmetry; apply set_forwardedCounter_same |].
    intros err. split; [discriminate | intros [E _]; discriminate].
Qed.

Lemma nmeaHandler_throws_iff_witness :
  res_val (nmeaHandler (fun _ => Some (Thrown (Some (str "EIO"))))
                       sample_sentence started)
    = Throw (Thrown (Some (str "EIO"))) /\
  forwardedCounter
    (res_world (nmeaHandler (fun _ => Some (Thrown (Some (str "EIO"))))
                            sample_sentence started)) = 1%N.
Proof.
  destruct (nmeaHandler_throws_iff (fun _ => Some (Thrown (Some (str "EIO"))))
                                   sample_sentence started) as [Hw Ht].
  split.
  - apply Ht. split; [reflexivity |]. exists 0. split; reflexivity.
  - rewrite Hw. reflexivity.
Defined.

(** ** A start that goes through *)

Lemma update_last {A : Type} (f : A -> A) (l : list A) (x : A) :
  update (List.length l) f (l ++ [x]) = l ++ [f x].
Proof. induction l as [|y l IH]; simpl; [reflexivity | rewrite IH; reflexivity]. Qed.

Lemma first_throw_none (env : Env) (calls : list extcall) :
  first_throw env calls = None -> Forall (fun c => env c = None) calls.
Proof.
  induction calls as [|c calls IH]; simpl; [constructor |].
  destruct (env c) eqn:E; [discriminate |]. intros H. constructor; auto.
Qed.

(** The six library calls of a start that goes through, none of which
    throws. *)
Ltac start_calls_quiet H :=
  apply first_throw_none in H; unfold start_calls in H;
  repeat match type of H with
         | Forall _ (_ :: _) =>
             let E := fresh "E" in
             let H' := fresh "H" in
             inversion H as [|? ? E H']; subst; clear H; rename H' into H
         end;
  clear H.

(** One statement of the [try] block when no call throws. *)
Ltac quiet_step :=
  first [rewrite bind_world | rewrite bind_out | rewrite bind_val];
  first [ rewrite new_SerialPort_run | rewrite serial_on_run
        | rewrite app_on_run | rewrite setInterval_run | rewrite modify_run ];
  repeat match goal with
         | E : ?env ?c = None |- context [?env ?c] => rewrite E
         end;
  cbn [res_val res_world res_out app].

Lemma start_try_ok_world (env : Env) (settings : PluginSettings) (w : World) :
  first_throw env (start_calls settings (List.length (ports w))) = None ->
  res_world (start_try env settings w) = after_start settings w.
Proof.
  intros H. start_calls_quiet H.
  unfold start_try. do 8 quiet_step.
  unfold after_start, port_of, app_setPluginStatus, emit.
  cbn [res_world set_serial set_ports set_bus set_timers set_reportInterval
       reportInterval forwardedCounter serial timers ports bus].
  rewrite !update_last. cbn [add_listener sp_path sp_baudRate isOpen sp_listeners app].
  rewrite <- app_assoc. reflexivity.
Qed.

Lemma start_try_ok_out (env : Env) (settings : PluginSettings) (w : World) :
  first_throw env (start_calls settings (List.length (ports w))) = None ->
  res_out (start_try env settings w) = [PluginStatus (str "Started")].
Proof.
  intros H. start_calls_quiet H.
  unfold start_try. do 8 quiet_step. reflexivity.
Qed.

Lemma res_eta {A : Type} (r : Res A) :
  r = mkRes (res_world r) (res_out r) (res_val r).
Proof. destruct r; reflexivity. Qed.

Lemma start_try_ok (env : Env) (settings : PluginSettings) (w : World) :
  first_throw env (start_calls settings (List.length (ports w))) = None ->
  start_try env settings w =
  mkRes (after_start settings w) [PluginStatus (str "Started")] (Normal tt).
Proof.
  intros H. rewrite (res_eta (start_try env settings w)).
  rewrite start_try_ok_world, start_try_ok_out, start_try_val, H by exact H.
  reflexivity.
Qed.

Lemma start_world (env : Env) (settings : PluginSettings) (w : World) :
  res_world (start env settings w) = res_world (start_try env settings w).
Proof.
  unfold start. rewrite bind_world. cbn [app_debug emit res_val res_world].
  unfold try_catch. destruct (res_val (start_try env settings w)); reflexivity.
Qed.

Lemma start_ok (env : Env) (settings : PluginSettings) (w : World) :
  first_throw env (start_calls settings (List.length (ports w))) = None ->
  start env settings w =
  mkRes (after_start settings w)
        [Debug (str "signalk-nmea0183-to-serial starting...");
         PluginStatus (str "Started")]
        (Normal tt).
Proof.
  intros H. unfold start, bind, try_catch.
  cbn [app_debug emit res_val res_world res_out].
  rewrite (start_try_ok _ _ _ H). reflexivity.
Qed.

Lemma effective_baudRate_pos (settings : PluginSettings) :
  (0 < effective_baudRate settings)%N.
Proof.
  unfold effective_baudRate. destruct (baudRate settings) as [[|b]|]; lia.
Qed.

(** X4: when no library call throws, [start] logs the debug line, publishes
    "Started" and leaves this world: a new port object, not open yet, built
    with the configured path and a baud rate that is never 0, with the two
    listeners attached; [serial] referring to it; one more subscription on
    each of the two channels; a new active 20 s timer with [reportInterval]
    referring to it.  Nothing that existed is touched and the counter keeps
    its value. *)
Theorem start_goes_through (env : Env) (settings : PluginSettings) (w : World) :
  first_throw env (start_calls settings (List.length (ports w))) = None ->
  start env settings w =
    mkRes
      {| reportInterval := Some (List.length (timers w));
         forwardedCounter := forwardedCounter w;
         serial := Some (List.length (ports w));
         timers := timers w ++ [{| period := 20000; active := true |}];
         ports := ports w ++
                  [{| sp_path := serialPort settings;
                      sp_baudRate := effective_baudRate settings;
                      isOpen := false;
                      sp_listeners := [OnOpen settings; OnError] |}];
         bus := bus w ++ [str "nmea0183"; str "nmea0183out"] |}
      [Debug (str "signalk-nmea0183-to-serial starting...");
       PluginStatus (str "Started")]
      (Normal tt) /\
  (0 < effective_baudRate settings)%N.
Proof.
  intros H. split; [exact (start_ok _ _ _ H) | apply effective_baudRate_pos].
Qed.

Lemma start_goes_through_witness :
  first_throw quiet (start_calls sample_settings (List.length (ports initial))) = None /\
  res_world (start quiet sample_settings initial) =
    {| reportInterval := Some 0;
       forwardedCounter := 0;
       serial := Some 0;
       timers := [{| period := 20000; active := true |}];
       ports := [{| sp_path := Some (str "/dev/test0");
                    sp_baudRate := 4800;
                    isOpen := false;
                    sp_listeners := [OnOpen sample_settings; OnError] |}];
       bus := [str "nmea0183"; str "nmea0183out"] |}.
Proof.
  split; [reflexivity |].
  destruct (@start_goes_through quiet sample_settings initial eq_refl) as [H _].
  rewrite H. reflexivity.
Defined.

(** ** A start that fails *)

(** One statement of the [try] block, splitting on whether its library call
    throws and keeping [H], the fact about the first throw, in step. *)
Ltac failing_step H :=
  rewrite bind_world;
  first [ rewrite new_SerialPort_run | rewrite serial_on_run
        | rewrite app_on_run | rewrite setInterval_run | rewrite modify_run ];
  try match goal with
      | |- context [res_val (match ?env ?c with Some _ => _ | None => _ end)] =>
          let E := fresh "E" in
          destruct (env c) eqn:E; rewrite ?E in H; cbn [first_throw] in H
      end;
  cbn [res_val res_world].

Lemma start_try_failed_world (env : Env) (settings : PluginSettings) (w : World)
      (err : jsexn) :
  env (NewSerialPort (serialPort settings) (effective_baudRate settings)) = None ->
  first_throw env (start_calls settings (List.length (ports w))) = Some err ->
  let w' := res_world (start_try env settings w) in
  serial w' = Some (List.length (ports w)) /\
  List.length (ports w') = S (List.length (ports w)) /\
  reportInterval w' = reportInterval w /\
  forwardedCounter w' = forwardedCounter w.
Proof.
  intros E0 H w'. unfold w'. clear w'.
  unfold start_calls in H. cbn [first_throw] in H. rewrite E0 in H.
  unfold start_try.
  rewrite bind_world, new_SerialPort_run, E0. cbn [res_val res_world].
  do 7 (failing_step H;
        try (cbn [set_serial set_ports set_bus set_timers set_reportInterval
                  reportInterval forwardedCounter serial timers ports bus];
             rewrite ?length_update, ?length_app; cbn [List.length];
             repeat split; lia)).
  discriminate H.
Qed.

(** X5: a start that fails is not rolled back.  When the [SerialPort]
    constructor throws, the world is as before.  When the constructor returns
    and a later call throws, [serial] already refers to the new port object,
    which stays allocated; [reportInterval] and the counter are as before, so
    a [stop] that follows finds no new timer and leaves the port as it is. *)
Theorem failed_start_not_rolled_back
        (env : Env) (settings : PluginSettings) (w : World) (err : jsexn) :
  first_throw env (start_calls settings (List.length (ports w))) = Some err ->
  let w' := res_world (start env settings w) in
  (env (NewSerialPort (serialPort settings) (effective_baudRate settings)) <> None ->
   w' = w) /\
  (env (NewSerialPort (serialPort settings) (effective_baudRate settings)) = None ->
   serial w' = Some (List.length (ports w)) /\
   List.length (ports w') = S (List.length (ports w)) /\
   reportInterval w' = reportInterval w /\
   forwardedCounter w' = forwardedCounter w /\
   ports (res_world (stop w')) = ports w').
Proof.
  intros H w'. unfold w'. clear w'. rewrite start_world. split.
  - intros E0. unfold start_try. rewrite bind_world, new_SerialPort_run.
    destruct (env (NewSerialPort _ _)); [reflexivity | congruence].
  - intros E0.
    destruct (start_try_failed_world env settings w E0 H) as (Hs & Hp & Hr & Hc).
    repeat split; auto.
    rewrite stop_run. reflexivity.
Qed.

Lemma failed_start_not_rolled_back_witness :
  first_throw (broken_timer (Thrown None))
              (start_calls sample_settings (List.length (ports initial)))
    = Some (Thrown None) /\
  serial (res_world (start (broken_timer (Thrown None)) sample_settings initial))
    = Some 0 /\
  reportInterval (res_world (start (broken_timer (Thrown None)) sample_settings initial))
    = None.
Proof.
  split; [reflexivity |].
  destruct (@failed_start_not_rolled_back (broken_timer (Thrown None))
              sample_settings initial (Thrown None) eq_refl) as [_ H].
  destruct (H eq_refl) as (Hs & _ & Hr & _).
  split; [exact Hs | exact Hr].
Defined.

(** ** Timers across start and stop *)

Lemma nth_error_last {A : Type} (l : list A) (x : A) :
  nth_error (l ++ [x]) (List.length l) = Some x.
Proof.
  rewrite nth_error_app2 by lia. rewrite Nat.sub_diag. reflexivity.
Qed.

Lemma tick_run (t : nat) (w : World) :
  tick t w =
  match nth_error (timers w) t with
  | Some tm => if active tm then reporter w else mkRes w [] (Normal tt)
  | None => mkRes w [] (Normal tt)
  end.
Proof.
  unfold tick, bind, get. cbn [res_val res_world res_out].
  destruct (nth_error (timers w) t) as [tm|]; [destruct (active tm) |];
    cbn [app]; reflexivity.
Qed.

Lemma stop_after_start (settings : PluginSettings) (w : World) :
  res_world (stop (after_start settings w)) =
  set_timers (timers w ++ [{| period := 20000; active := false |}])
             (after_start settings w).
Proof.
  rewrite stop_run. cbn [res_world]. unfold timers_after_stop.
  cbn [after_start reportInterval timers]. rewrite update_last. reflexivity.
Qed.

(** X6: [stop] cancels the timer [reportInterval] refers to and no other.
    After a [start] that goes through and a [stop], the timer of that start
    is inactive and reports nothing when it comes due.  A timer of an earlier
    start that was still active when this start overwrote [reportInterval]
    is still active after the [stop], and goes on publishing the count and
    resetting the counter. *)
Theorem stop_cancels_latest_timer_only
        (env : Env) (settings : PluginSettings) (w : World) (t : nat) (tm : Timer) :
  first_throw env (start_calls settings (List.length (ports w))) = None ->
  let w1 := res_world (start env settings w) in
  let w2 := res_world (stop w1) in
  reportInterval w1 = Some (List.length (timers w)) /\
  tick (List.length (timers w)) w2 = mkRes w2 [] (Normal tt) /\
  (nth_error (timers w) t = Some tm ->
   active tm = true ->
   nth_error (timers w2) t = Some tm /\
   tick t w2 =
     mkRes (set_forwardedCounter 0 w2)
           [PluginStatus (str "Forwarded " +++ number_to_string (forwardedCounter w)
                            +++ str " NMEA0183 messages.")]
           (Normal tt)).
Proof.
  intros H w1 w2. unfold w2, w1. clear w1 w2.
  rewrite (start_ok _ _ _ H). cbn [res_world]. rewrite stop_after_start.
  split; [reflexivity |]. split.
  - rewrite tick_run. cbn [timers set_timers]. rewrite nth_error_last. reflexivity.
  - intros Ht Ha.
    assert (Ht' : nth_error (timers w ++ [{| period := 20000; active := false |}]) t
                  = Some tm).
    { rewrite nth_error_app1; [exact Ht |]. apply nth_error_Some. congruence. }
    split; [exact Ht' |].
    rewrite tick_run. cbn [timers set_timers]. rewrite Ht', Ha. reflexivity.
Qed.

Lemma stop_cancels_latest_timer_only_witness :
  first_throw quiet (start_calls sample_settings (List.length (ports started))) = None /\
  nth_error (timers started) 0 = Some {| period := 20000; active := true |} /\
  nth_error
    (timers (res_world (stop (res_world (start quiet sample_settings started))))) 0
  = Some {| period := 20000; active := true |} /\
  nth_error
    (timers (res_world (stop (res_world (start quiet sample_settings started))))) 1
  = Some {| period := 20000; active := false |}.
Proof.
  split; [reflexivity | split; [reflexivity |]].
  destruct (@stop_cancels_latest_timer_only quiet sample_settings started 0
              {| period := 20000; active := true |} eq_refl) as (_ & _ & H).
  split; [exact (proj1 (H eq_refl eq_refl)) | reflexivity].
Defined.

(** ** The port's listeners *)

Lemma run_listeners_open (settings : PluginSettings) (w : World) :
  run_listeners (str "open") [] [OnOpen settings; OnError] w =
  mkRes w
        [PluginStatus (str "Opened serial port " +++ render_serialPort settings
                         +++ str " with baudrate " +++ render_baudRate settings
                         +++ str ".")]
        (Normal tt).
Proof. reflexivity. Qed.

Lemma run_listeners_error (settings : PluginSettings) (err : jsstring) (w : World) :
  run_listeners (str "error") err [OnOpen settings; OnError] w =
  mkRes w [PluginStatus (str "Serial port error: " +++ err +++ str ".")] (Normal tt).
Proof. reflexivity. Qed.

Lemma port_opened_after_start (settings : PluginSettings) (w : World) :
  port_opened (List.length (ports w)) (after_start settings w) =
  mkRes (set_ports (ports w ++ [open_port (port_of settings)]) (after_start settings w))
        [PluginStatus (str "Opened serial port " +++ render_serialPort settings
                         +++ str " with baudrate " +++ render_baudRate settings
                         +++ str ".")]
        (Normal tt).
Proof.
  unfold port_opened, bind, get, modify. cbn [res_val res_world res_out app].
  cbn [after_start ports]. rewrite nth_error_last, update_last.
  cbn [port_of sp_listeners]. rewrite run_listeners_open. reflexivity.
Qed.

Lemma port_error_after_start (settings : PluginSettings) (err : jsstring) (w : World) :
  port_error (List.length (ports w)) err (after_start settings w) =
  mkRes (after_start settings w)
        [PluginStatus (str "Serial port error: " +++ err +++ str ".")]
        (Normal tt).
Proof.
  unfold port_error, bind, get. cbn [res_val res_world res_out app].
  cbn [after_start ports]. rewrite nth_error_last.
  cbn [port_of sp_listeners]. rewrite run_listeners_error. reflexivity.
Qed.

(** X7: when the library reports the port of a start that went through as
    open, the plugin publishes one status, "Opened serial port P with
    baudrate B.", where P and B are the configured path and baud rate as the
    template literal prints them (a Number by [Number::toString], so 10^21
    reads "1e+21"; a missing value reads "undefined"), and changes nothing of
    its own: the module variables are as before.  From then on the port
    [serial] refers to is open; before, it was not. *)
Theorem open_event_publishes_status (env : Env) (settings : PluginSettings) (w : World) :
  first_throw env (start_calls settings (List.length (ports w))) = None ->
  let w1 := res_world (start env settings w) in
  let r := port_opened (List.length (ports w)) w1 in
  res_out r =
    [PluginStatus (str "Opened serial port " +++ render_serialPort settings
                     +++ str " with baudrate " +++ render_baudRate settings
                     +++ str ".")] /\
  res_val r = Normal tt /\
  transport_open w1 = false /\
  transport_open (res_world r) = true /\
  serial (res_world r) = serial w1 /\
  reportInterval (res_world r) = reportInterval w1 /\
  forwardedCounter (res_world r) = forwardedCounter w1.
Proof.
  intros H w1 r. unfold r, w1. clear r w1.
  rewrite (start_ok _ _ _ H). cbn [res_world]. rewrite port_opened_after_start.
  cbn [res_out res_val res_world].
  repeat split; unfold transport_open;
    cbn [after_start set_ports serial ports]; rewrite nth_error_last; reflexivity.
Qed.

Lemma open_event_publishes_status_witness :
  first_throw quiet (start_calls sample_settings (List.length (ports initial))) = None /\
  res_out (port_opened 0 (res_world (start quiet sample_settings initial))) =
    [PluginStatus (str "Opened serial port /dev/test0 with baudrate 4800.")].
Proof.
  split; [reflexivity |].
  apply (@open_event_publishes_status quiet sample_settings initial eq_refl).
Defined.

(** X8: when the library reports an error on the port of a start that went
    through, the plugin publishes one status, "Serial port error: E." (a
    status, not an error status), and changes nothing: the port object stays
    in [serial], so sentences that pass the framing check are still handed to
    [serial.write]. *)
Theorem error_event_publishes_status
        (env : Env) (settings : PluginSettings) (w : World) (err : jsstring) :
  first_throw env (start_calls settings (List.length (ports w))) = None ->
  let w1 := res_world (start env settings w) in
  port_error (List.length (ports w)) err w1 =
    mkRes w1 [PluginStatus (str "Serial port error: " +++ err +++ str ".")] (Normal tt) /\
  forall (env' : Env) (sentence : jsstring),
    isForwardable sentence = true ->
    res_out (nmeaHandler env' sentence
               (res_world (port_error (List.length (ports w)) err w1))) =
      [SerialWrite (List.length (ports w)) (trim sentence +++ crlf)].
Proof.
  intros H w1. unfold w1. clear w1.
  rewrite (start_ok _ _ _ H). cbn [res_world]. rewrite port_error_after_start.
  split; [reflexivity |].
  intros env' sentence Hs. cbn [res_world].
  rewrite (nmeaHandler_accept_port env' sentence (after_start settings w) Hs eq_refl).
  reflexivity.
Qed.

Lemma error_event_publishes_status_witness :
  first_throw quiet (start_calls sample_settings (List.length (ports initial))) = None /\
  port_error 0 (str "Error: No such file")
             (res_world (start quiet sample_settings initial)) =
    mkRes (res_world (start quiet sample_settings initial))
          [PluginStatus (str "Serial port error: Error: No such file.")]
          (Normal tt).
Proof.
  split; [reflexivity |].
  apply (@error_event_publishes_status quiet sample_settings initial
           (str "Error: No such file") eq_refl).
Defined.

(** X9: a missing or zero [baudRate] is replaced by 38400 when the port is
    built, but not in the status: once the port opens the plugin publishes
    the configured value, "undefined" or "0", while the port runs at 38400. *)
Theorem missing_baudRate (env : Env) (settings : PluginSettings) (w : World) :
  baudRate settings = None \/ baudRate settings = Some 0%N ->
  first_throw env (start_calls settings (List.length (ports w))) = None ->
  let w1 := res_world (start env settings w) in
  option_map sp_baudRate (nth_error (ports w1) (List.length (ports w))) = Some 38400%N /\
  res_out (port_opened (List.length (ports w)) w1) =
    [PluginStatus (str "Opened serial port " +++ render_serialPort settings
                     +++ str " with baudrate "
                     +++ match baudRate settings with
                         | None => str "undefined"
                         | Some _ => str "0"
                         end
                     +++ str ".")].
Proof.
  intros Hb H w1. unfold w1. clear w1.
  rewrite (start_ok _ _ _ H). cbn [res_world]. rewrite port_opened_after_start.
  cbn [res_out after_start ports]. rewrite nth_error_last.
  unfold port_of, render_baudRate, effective_baudRate. cbn [option_map sp_baudRate].
  destruct Hb as [-> | ->]; split; reflexivity.
Qed.

Lemma missing_baudRate_witness :
  res_out (port_opened 0
             (res_world (start quiet {| baudRate := None;
                                        serialPort := Some (str "/dev/ttyUSB0") |}
                               initial))) =
    [PluginStatus (str "Opened serial port /dev/ttyUSB0 with baudrate undefined.")].
Proof.
  apply (@missing_baudRate quiet
           {| baudRate := None; serialPort := Some (str "/dev/ttyUSB0") |} initial);
    [left; reflexivity | reflexivity].
Defined.

(** ** What a callback may do to the world *)

Lemma port_kept_refl (sp : SerialPort) : port_kept sp sp.
Proof.
  repeat split; auto. exists []. symmetry. apply app_nil_r.
Qed.

Lemma port_kept_trans (a b c : SerialPort) :
  port_kept a b -> port_kept b c -> port_kept a c.
Proof.
  intros (Hp & Hb & Ho & l1 & Hl1) (Hp' & Hb' & Ho' & l2 & Hl2).
  repeat split; try congruence; auto.
  exists (l1 ++ l2). rewrite Hl2, Hl1, app_assoc. reflexivity.
Qed.

Lemma ports_kept_update (f : SerialPort -> SerialPort) (p : nat) (l : list SerialPort) :
  (forall sp, port_kept sp (f sp)) ->
  forall (i : nat) (sp : SerialPort),
    nth_error l i = Some sp ->
    exists sp' : SerialPort, nth_error (update p f l) i = Some sp' /\ port_kept sp sp'.
Proof.
  intros Hf i sp Hi. destruct (Nat.eq_dec p i) as [->|Hne].
  - exists (f sp). rewrite nth_error_update_same, Hi. split; [reflexivity | apply Hf].
  - exists sp. rewrite nth_error_update_other by exact Hne.
    split; [exact Hi | apply port_kept_refl].
Qed.

Lemma ports_kept_same (l : list SerialPort) (i : nat) (sp : SerialPort) :
  nth_error l i = Some sp ->
  exists sp' : SerialPort, nth_error l i = Some sp' /\ port_kept sp sp'.
Proof. intros Hi. exists sp. split; [exact Hi | apply port_kept_refl]. Qed.

Lemma ports_kept_app (l more : list SerialPort) (i : nat) (sp : SerialPort) :
  nth_error l i = Some sp ->
  exists sp' : SerialPort, nth_error (l ++ more) i = Some sp' /\ port_kept sp sp'.
Proof.
  intros Hi. exists sp. split; [| apply port_kept_refl].
  rewrite nth_error_app1; [exact Hi |]. apply nth_error_Some. congruence.
Qed.

Lemma step_frame_refl (w : World) : step_frame w w.
Proof.
  unfold step_frame. repeat split; auto.
  - apply ports_kept_same.
  - exists []. symmetry. apply app_nil_r.
Qed.

Lemma step_frame_counter (c : N) (w : World) :
  step_frame w (set_forwardedCounter c w).
Proof. exact (step_frame_refl w). Qed.

Lemma step_frame_timers (ts : list Timer) (w : World) :
  List.length (timers w) <= List.length ts ->
  step_frame w (set_timers ts w).
Proof.
  intros H. destruct (step_frame_refl w) as (H1 & _ & H3 & H4 & H5 & H6).
  unfold step_frame. cbn [set_timers ports timers bus serial reportInterval].
  repeat split; auto.
Qed.

Lemma step_frame_ports (f : SerialPort -> SerialPort) (p : nat) (w : World) :
  (forall sp, port_kept sp (f sp)) ->
  step_frame w (set_ports (update p f (ports w)) w).
Proof.
  intros Hf. unfold step_frame. cbn [set_ports ports timers bus serial reportInterval].
  rewrite length_update. repeat split; auto.
  - apply ports_kept_update, Hf.
  - exists []. symmetry. apply app_nil_r.
Qed.

Lemma open_port_kept (sp : SerialPort) : port_kept sp (open_port sp).
Proof.
  repeat split; auto. exists []. symmetry. apply app_nil_r.
Qed.

(** The listeners of a port only publish statuses. *)
Lemma run_listeners_run (event err : jsstring) (ls : list PortListener) (w : World) :
  exists msgs : list jsstring,
    run_listeners event err ls w = mkRes w (map PluginStatus msgs) (Normal tt).
Proof.
  induction ls as [|l ls (msgs & IH)].
  - exists []. reflexivity.
  - cbn [run_listeners]. unfold bind.
    assert (Hl : exists m1, run_listener event err l w
                            = mkRes w (map PluginStatus m1) (Normal tt)).
    { destruct l as [settings|]; cbn [run_listener].
      - destruct (JsString.eqb event (str "open"));
          [eexists [_] | exists []]; reflexivity.
      - destruct (JsString.eqb event (str "error"));
          [eexists [_] | exists []]; reflexivity. }
    destruct Hl as (m1 & ->). cbn [res_val res_world res_out]. rewrite IH.
    exists (m1 ++ msgs). cbn [res_val res_world res_out]. rewrite map_app. reflexivity.
Qed.

Lemma port_opened_run (p : nat) (w : World) :
  exists msgs : list jsstring,
    port_opened p w =
    mkRes (set_ports (update p open_port (ports w)) w) (map PluginStatus msgs) (Normal tt).
Proof.
  unfold port_opened, bind, get, modify. cbn [res_val res_world res_out app].
  destruct (nth_error (ports w) p) as [sp|].
  - destruct (run_listeners_run (str "open") [] (sp_listeners sp)
                (set_ports (update p open_port (ports w)) w)) as (msgs & ->).
    exists msgs. reflexivity.
  - exists []. reflexivity.
Qed.

Lemma port_error_run (p : nat) (err : jsstring) (w : World) :
  exists msgs : list jsstring,
    port_error p err w = mkRes w (map PluginStatus msgs) (Normal tt).
Proof.
  unfold port_error, bind, get. cbn [res_val res_world res_out app].
  destruct (nth_error (ports w) p) as [sp|].
  - destruct (run_listeners_run (str "error") err (sp_listeners sp) w) as (msgs & ->).
    exists msgs. reflexivity.
  - exists []. reflexivity.
Qed.

Lemma nmeaHandler_world (env : Env) (sentence : jsstring) (w : World) :
  res_world (nmeaHandler env sentence w) =
  set_forwardedCounter
    (forwardedCounter w + if isForwardable sentence then 1 else 0) w.
Proof.
  destruct (isForwardable sentence) eqn:H.
  - destruct (serial w) as [p|] eqn:Hs.
    + rewrite (nmeaHandler_accept_port env _ _ H Hs). reflexivity.
    + rewrite (nmeaHandler_accept_null env _ _ H Hs). reflexivity.
  - rewrite (nmeaHandler_reject env _ _ H). symmetry. apply set_forwardedCounter_same.
Qed.

Lemma emit_listeners_world (env : Env) (channel sentence : jsstring)
      (subscriptions : list jsstring) (w : World) :
  exists c : N,
    res_world (emit_listeners env channel sentence subscriptions w)
    = set_forwardedCounter c w.
Proof.
  revert w. induction subscriptions as [|s rest IH]; intros w.
  - exists (forwardedCounter w). destruct w; reflexivity.
  - cbn [emit_listeners]. rewrite bind_world.
    assert (H1 : exists c1,
               res_world ((if JsString.eqb s channel
                           then nmeaHandler env sentence else ret tt) w)
               = set_forwardedCounter c1 w).
    { destruct (JsString.eqb s channel).
      - eexists. apply nmeaHandler_world.
      - exists (forwardedCounter w). destruct w; reflexivity. }
    destruct H1 as (c1 & H1). rewrite H1.
    destruct (res_val _); [| exists c1; reflexivity].
    destruct (IH (set_forwardedCounter c1 w)) as (c & Hc). rewrite Hc.
    exists c. reflexivity.
Qed.

Lemma app_emit_world (env : Env) (channel sentence : jsstring) (w : World) :
  exists c : N,
    res_world (app_emit env channel sentence w) = set_forwardedCounter c w.
Proof.
  unfold app_emit. rewrite bind_world. cbn [get res_val res_world].
  apply emit_listeners_world.
Qed.

(** One statement of the [try] block, splitting on whether its library call
    throws. *)
Ltac world_step :=
  rewrite bind_world;
  first [ rewrite new_SerialPort_run | rewrite serial_on_run
        | rewrite app_on_run | rewrite setInterval_run | rewrite modify_run ];
  try match goal with
      | |- context [res_val (match ?env ?c with Some _ => _ | None => _ end)] =>
          destruct (env c)
      end;
  cbn [res_val res_world].

(** The world at the point where [start] stops or ends, against the world it
    began in. *)
Ltac frame_leaf :=
  unfold step_frame;
  cbn [set_serial set_ports set_bus set_timers set_reportInterval
       reportInterval forwardedCounter serial timers ports bus];
  rewrite ?update_last, ?length_app; cbn [List.length];
  split; [lia |];
  split; [lia |];
  split; [intros i sp Hi; first [apply ports_kept_app | apply ports_kept_same]; exact Hi |];
  split; [first [ exists []; symmetry; apply app_nil_r
                | eexists; rewrite <- ?app_assoc; reflexivity ] |];
  split; (first [ left; reflexivity | right; split; [reflexivity | lia] ]).

Lemma start_frame (env : Env) (settings : PluginSettings) (w : World) :
  step_frame w (res_world (start env settings w)).
Proof.
  rewrite start_world. unfold start_try.
  do 8 (world_step; try solve [frame_leaf]).
  cbn [app_setPluginStatus emit res_world]. frame_leaf.
Qed.

Lemma stop_frame_step (w : World) : step_frame w (res_world (stop w)).
Proof.
  rewrite stop_run. cbn [res_world]. apply step_frame_timers.
  unfold timers_after_stop. destruct (reportInterval w); [rewrite length_update |]; lia.
Qed.

Lemma tick_frame (t : nat) (w : World) : step_frame w (res_world (tick t w)).
Proof.
  rewrite tick_run.
  destruct (nth_error (timers w) t) as [tm|]; [destruct (active tm) |];
    try apply step_frame_refl.
  rewrite reporter_run. apply step_frame_counter.
Qed.

Lemma handle_frame (e : event) (w : World) : step_frame w (res_world (handle e w)).
Proof.
  destruct e as [env settings | | env channel sentence | t | p | p err]; cbn [handle].
  - apply start_frame.
  - apply stop_frame_step.
  - destruct (app_emit_world env channel sentence w) as (c & ->).
    apply step_frame_counter.
  - apply tick_frame.
  - destruct (port_opened_run p w) as (msgs & ->). cbn [res_world].
    apply step_frame_ports, open_port_kept.
  - destruct (port_error_run p err w) as (msgs & ->). apply step_frame_refl.
Qed.

Lemma refs_valid_step (w w' : World) :
  step_frame w w' -> refs_valid w -> refs_valid w'.
Proof.
  intros (Hp & Ht & _ & _ & Hs & Hr) [Vs Vr]. split.
  - intros p E. destruct Hs as [Hs | [Hs Hlt]]; rewrite Hs in E.
    + specialize (Vs p E). lia.
    + injection E as <-. exact Hlt.
  - intros t E. destruct Hr as [Hr | [Hr Hlt]]; rewrite Hr in E.
    + specialize (Vr t E). lia.
    + injection E as <-. exact Hlt.
Qed.

Lemma nothing_released_step (w w' : World) :
  step_frame w w' -> nothing_released w w'.
Proof.
  intros (_ & _ & Hk & Hb & Hs & _). repeat split; auto.
  intros Hn. destruct Hs as [Hs | [Hs _]]; rewrite Hs; [exact Hn | discriminate].
Qed.

Lemma nothing_released_trans (a b c : World) :
  nothing_released a b -> nothing_released b c -> nothing_released a c.
Proof.
  intros (Hk & (m1 & Hb) & Hs) (Hk' & (m2 & Hb') & Hs'). repeat split.
  - intros i sp Hi. destruct (Hk i sp Hi) as (sp1 & H1 & K1).
    destruct (Hk' i sp1 H1) as (sp2 & H2 & K2).
    exists sp2. split; [exact H2 | exact (port_kept_trans K1 K2)].
  - exists (m1 ++ m2). rewrite Hb', Hb, app_assoc. reflexivity.
  - auto.
Qed.

Lemma run_cons (e : event) (events : list event) (w : World) :
  run (e :: events) w =
  (fst (run events (res_world (handle e w))),
   res_out (handle e w) ++ snd (run events (res_world (handle e w)))).
Proof.
  cbn [run]. destruct (run events (res_world (handle e w))). reflexivity.
Qed.

(** The references of the model are well formed: over every sequence of
    events [serial] names a port that exists and [reportInterval] a timer
    that exists, provided they did at the beginning, as in the module as
    loaded. *)
Lemma references_stay_valid (events : list event) (w : World) :
  refs_valid w -> refs_valid (fst (run events w)).
Proof.
  revert w. induction events as [|e events IH]; intros w V; [exact V |].
  rewrite run_cons. cbn [fst]. apply IH.
  exact (refs_valid_step (handle_frame e w) V).
Qed.

Lemma references_stay_valid_witness :
  refs_valid initial /\
  refs_valid
    (fst (run [EvStart (broken_timer (Thrown None)) sample_settings;
               EvStop;
               EvStart quiet sample_settings;
               EvSentence quiet (str "nmea0183") sample_sentence;
               EvPortOpened 1;
               EvTimer 0]
              initial)).
Proof.
  assert (V : refs_valid initial) by (split; intros ? E; discriminate E).
  split; [exact V |].
  exact (@references_stay_valid _ initial V).
Defined.

(** X10: the plugin releases nothing.  Over every sequence of starts, stops,
    sentences, timer ticks and port events, every port object that exists is
    kept with its path and baud rate, a port that is open stays open (no
    callback closes it, [stop] included), the listeners on a port and the
    subscriptions on the bus are never removed, and [serial], once set, is
    never null again. *)
Theorem nothing_is_released (events : list event) (w : World) :
  nothing_released w (fst (run events w)).
Proof.
  revert w. induction events as [|e events IH]; intros w.
  - apply nothing_released_step, step_frame_refl.
  - rewrite run_cons. cbn [fst].
    exact (nothing_released_trans
             (nothing_released_step (handle_frame e w)) (IH _)).
Qed.

(** ** What reaches the serial port *)

Lemma last_three (l : jsstring) :
  3 <= List.length l ->
  exists (body : jsstring) (x a b : N),
    l = body ++ [x; a; b] /\ nth_error l (List.length l - 3) = Some x.
Proof.
  intros Hlen.
  pose proof (firstn_skipn (List.length l - 3) l) as Hsplit.
  assert (Hf : List.length (firstn (List.length l - 3) l) = List.length l - 3)
    by (rewrite length_firstn; lia).
  assert (Hs : List.length (skipn (List.length l - 3) l) = 3)
    by (rewrite length_skipn; lia).
  destruct (skipn (List.length l - 3) l) as [|x [|a [|b [|c rest]]]];
    try discriminate Hs.
  exists (firstn (List.length l - 3) l), x, a, b.
  split; [symmetry; exact Hsplit |].
  rewrite <- Hsplit at 1. rewrite nth_error_app2 by lia.
  rewrite Hf, Nat.sub_diag. reflexivity.
Qed.

Lemma framed_of_forwardable (sentence : jsstring) :
  isForwardable sentence = true -> framed_line (trim sentence +++ crlf).
Proof.
  unfold isForwardable. intros H. apply frame_ok_iff in H as (Hlen & H0 & H3).
  destruct (trim sentence) as [|c d] eqn:E; [simpl in Hlen; lia |].
  simpl in H0. injection H0 as ->.
  cbn [List.length] in Hlen, H3.
  destruct (@last_three d) as (body & x & a & b & Hd & Hx); [lia |].
  replace (S (List.length d) - 3) with (S (List.length d - 3)) in H3 by lia.
  cbn [nth_error] in H3. rewrite Hx in H3. injection H3 as ->.
  exists body, a, b. rewrite Hd. cbn [app]. rewrite <- app_assoc. reflexivity.
Qed.

Lemma framed_statuses (msgs : list jsstring) :
  Forall framed_write (map PluginStatus msgs).
Proof. induction msgs; constructor; simpl; auto. Qed.

Lemma nmeaHandler_framed (env : Env) (sentence : jsstring) (w : World) :
  Forall framed_write (res_out (nmeaHandler env sentence w)).
Proof.
  destruct (isForwardable sentence) eqn:H.
  - destruct (serial w) as [p|] eqn:Hs.
    + rewrite (nmeaHandler_accept_port env _ _ H Hs). cbn [res_out].
      constructor; [| constructor]. exact (framed_of_forwardable _ H).
    + rewrite (nmeaHandler_accept_null env _ _ H Hs). constructor.
  - rewrite (nmeaHandler_reject env _ _ H). constructor.
Qed.

Lemma emit_listeners_framed (env : Env) (channel sentence : jsstring)
      (subscriptions : list jsstring) (w : World) :
  Forall framed_write (res_out (emit_listeners env channel sentence subscriptions w)).
Proof.
  revert w. induction subscriptions as [|s rest IH]; intros w; [constructor |].
  cbn [emit_listeners]. rewrite bind_out.
  assert (H1 : Forall framed_write
                 (res_out ((if JsString.eqb s channel
                            then nmeaHandler env sentence else ret tt) w))).
  { destruct (JsString.eqb s channel); [apply nmeaHandler_framed | constructor]. }
  destruct (res_val _); [| exact H1].
  apply Forall_app. split; [exact H1 | apply IH].
Qed.

Lemma start_try_out (env : Env) (settings : PluginSettings) (w : World) :
  res_out (start_try env settings w) = [] \/
  res_out (start_try env settings w) = [PluginStatus (str "Started")].
Proof.
  destruct (first_throw env (start_calls settings (List.length (ports w)))) as [err|] eqn:H.
  - left. unfold start_try.
    do 8 (rewrite bind_out;
          first [ rewrite new_SerialPort_run | rewrite serial_on_run
                | rewrite app_on_run | rewrite setInterval_run | rewrite modify_run ];
          try match goal with
              | |- context [res_val (match ?env ?c with Some _ => _ | None => _ end)] =>
                  let E := fresh "E" in
                  destruct (env c) eqn:E;
                  unfold start_calls in H; cbn [first_throw] in H; rewrite ?E in H
              end;
          cbn [res_val res_world res_out app]; try reflexivity).
    discriminate H.
  - right. apply start_try_ok_out, H.
Qed.

Lemma start_framed (env : Env) (settings : PluginSettings) (w : World) :
  Forall framed_write (res_out (start env settings w)).
Proof.
  unfold start. rewrite bind_out. cbn [app_debug emit res_val res_world res_out app].
  constructor; [exact I |]. unfold try_catch.
  assert (Ho : Forall framed_write (res_out (start_try env settings w)))
    by (destruct (start_try_out env settings w) as [-> | ->]; repeat constructor).
  destruct (res_val (start_try env settings w)); [exact Ho |].
  cbn [res_out]. apply Forall_app. split; [exact Ho | repeat constructor].
Qed.

Lemma handle_framed (e : event) (w : World) :
  Forall framed_write (res_out (handle e w)).
Proof.
  destruct e as [env settings | | env channel sentence | t | p | p err]; cbn [handle].
  - apply start_framed.
  - rewrite stop_run. repeat constructor.
  - unfold app_emit. rewrite bind_out. cbn [get res_val res_world res_out app].
    apply emit_listeners_framed.
  - rewrite tick_run.
    destruct (nth_error (timers w) t) as [tm|]; [destruct (active tm) |];
      repeat constructor.
  - destruct (port_opened_run p w) as (msgs & ->). apply framed_statuses.
  - destruct (port_error_run p err w) as (msgs & ->). apply framed_statuses.
Qed.

(** X11: nothing but framed lines reaches the serial port.  Over every
    sequence of starts, stops, sentences, timer ticks and port events, each
    piece of data handed to [serial.write] is [$], some text, [*], two code
    units, CR, LF. *)
Theorem only_framed_lines_written (events : list event) (w : World) :
  forall (p : nat) (data : jsstring),
    In (SerialWrite p data) (snd (run events w)) ->
    exists (body : jsstring) (a b : N),
      data = [code_unit "$"] ++ body ++ [code_unit "*"; a; b; 13; 10]%N.
Proof.
  assert (H : forall w', Forall framed_write (snd (run events w'))).
  { induction events as [|e events IH]; intros w'; [constructor |].
    rewrite run_cons. cbn [snd]. apply Forall_app.
    split; [apply handle_framed | apply IH]. }
  intros p data Hin. specialize (H w). rewrite Forall_forall in H.
  exact (H _ Hin).
Qed.

Lemma only_framed_lines_written_witness :
  In (SerialWrite 0 (str "$GPRMC,...*5B" +++ crlf))
     (snd (run [EvStart quiet sample_settings;
                EvSentence quiet (str "nmea0183out") (str "  $GPRMC,...*5B  ")]
               initial)) /\
  exists (body : jsstring) (a b : N),
    str "$GPRMC,...*5B" +++ crlf
    = [code_unit "$"] ++ body ++ [code_unit "*"; a; b; 13; 10]%N.
Proof.
  assert (Hin : In (SerialWrite 0 (str "$GPRMC,...*5B" +++ crlf))
                   (snd (run [EvStart quiet sample_settings;
                              EvSentence quiet (str "nmea0183out")
                                         (str "  $GPRMC,...*5B  ")]
                             initial)))
    by (vm_compute; right; right; left; reflexivity).
  split; [exact Hin |].
  exact (@only_framed_lines_written _ initial 0 _ Hin).
Defined.

(** ** Subscriptions pile up *)

Lemma set_forwardedCounter_twice (a b : N) (w : World) :
  set_forwardedCounter a (set_forwardedCounter b w) = set_forwardedCounter a w.
Proof. reflexivity. Qed.

Lemma emit_listeners_ok (env : Env) (channel sentence : jsstring)
      (subscriptions : list jsstring) (w : World) :
  isForwardable sentence = true ->
  (forall p : nat,
      serial w = Some p ->
      env (SerialWriteCall p (trim sentence +++ crlf)) = None) ->
  emit_listeners env channel sentence subscriptions w =
  mkRes (set_forwardedCounter
           (forwardedCounter w + N.of_nat (subscribers channel subscriptions)) w)
        (match serial w with
         | Some p => repeat (SerialWrite p (trim sentence +++ crlf))
                            (subscribers channel subscriptions)
         | None => []
         end)
        (Normal tt).
Proof.
  intros Hok Henv. revert w Henv.
  induction subscriptions as [|s rest IH]; intros w Henv.
  - cbn [emit_listeners subscribers filter List.length N.of_nat repeat].
    rewrite set_forwardedCounter_same. destruct (serial w); reflexivity.
  - cbn [emit_listeners]. unfold subscribers. cbn [filter].
    fold (subscribers channel rest).
    destruct (JsString.eqb s channel).
    + unfold bind. case_eq (serial w); [intros p Hs | intros Hs].
      * rewrite (nmeaHandler_accept_port env _ _ Hok Hs), (Henv p Hs).
        cbn [res_val res_world res_out].
        rewrite IH by (cbn [set_forwardedCounter serial]; exact Henv).
        cbn [res_val res_world res_out set_forwardedCounter serial forwardedCounter].
        rewrite Hs. cbn [List.length repeat app]. f_equal.
        unfold set_forwardedCounter.
        cbn [reportInterval serial timers ports bus forwardedCounter].
        f_equal. unfold subscribers. rewrite Nat2N.inj_succ. lia.
      * rewrite (nmeaHandler_accept_null env _ _ Hok Hs).
        cbn [res_val res_world res_out].
        rewrite IH by (cbn [set_forwardedCounter serial]; exact Henv).
        cbn [res_val res_world res_out set_forwardedCounter serial forwardedCounter].
        rewrite Hs. cbn [List.length app]. f_equal.
        unfold set_forwardedCounter.
        cbn [reportInterval serial timers ports bus forwardedCounter].
        f_equal. unfold subscribers. rewrite Nat2N.inj_succ. lia.
    + unfold bind. cbn [ret res_val res_world res_out].
      rewrite IH by exact Henv. reflexivity.
Qed.

Lemma app_emit_ok (env : Env) (channel sentence : jsstring) (w : World) :
  isForwardable sentence = true ->
  (forall p : nat,
      serial w = Some p ->
      env (SerialWriteCall p (trim sentence +++ crlf)) = None) ->
  app_emit env channel sentence w =
  mkRes (set_forwardedCounter
           (forwardedCounter w + N.of_nat (subscribers channel (bus w))) w)
        (match serial w with
         | Some p => repeat (SerialWrite p (trim sentence +++ crlf))
                            (subscribers channel (bus w))
         | None => []
         end)
        (Normal tt).
Proof.
  intros Hok Henv. unfold app_emit, bind, get. cbn [res_val res_world res_out app].
  rewrite (emit_listeners_ok env channel sentence (bus w) w Hok Henv). reflexivity.
Qed.

(** X12: a sentence emitted on a channel is handled once per subscription on
    that channel.  When it passes the framing check and [serial.write] does
    not throw, the counter grows by the number of subscriptions, and with a
    port in [serial] the same line is written that many times. *)
Theorem emit_handles_once_per_subscription
        (env : Env) (channel sentence : jsstring) (w : World) :
  isForwardable sentence = true ->
  (forall p : nat,
      serial w = Some p ->
      env (SerialWriteCall p (trim sentence +++ crlf)) = None) ->
  app_emit env channel sentence w =
  mkRes (set_forwardedCounter
           (forwardedCounter w + N.of_nat (subscribers channel (bus w))) w)
        (match serial w with
         | Some p => repeat (SerialWrite p (trim sentence +++ crlf))
                            (subscribers channel (bus w))
         | None => []
         end)
        (Normal tt).
Proof. exact (app_emit_ok env channel sentence w). Qed.

Lemma emit_handles_once_per_subscription_witness :
  isForwardable sample_sentence = true /\
  app_emit quiet (str "nmea0183") sample_sentence
           (res_world (start quiet sample_settings started)) =
  mkRes (set_forwardedCounter 2 (res_world (start quiet sample_settings started)))
        [SerialWrite 1 (sample_sentence +++ crlf);
         SerialWrite 1 (sample_sentence +++ crlf)]
        (Normal tt).
Proof.
  split; [reflexivity |].
  apply (@emit_handles_once_per_subscription quiet (str "nmea0183") sample_sentence
           (res_world (start quiet sample_settings started)));
    reflexivity.
Defined.

Lemma subscribers_app (channel : jsstring) (a b : list jsstring) :
  subscribers channel (a ++ b) = subscribers channel a + subscribers channel b.
Proof. unfold subscribers. rewrite filter_app, length_app. reflexivity. Qed.

Lemma first_throw_quiet (calls : list extcall) : first_throw quiet calls = None.
Proof. induction calls; simpl; auto. Qed.

Lemma restarts_world (k : nat) (settings : PluginSettings) (w : World) :
  let w' := res_world (restarts k settings w) in
  subscribers (str "nmea0183") (bus w') = subscribers (str "nmea0183") (bus w) + k /\
  subscribers (str "nmea0183out") (bus w')
    = subscribers (str "nmea0183out") (bus w) + k /\
  forwardedCounter w' = forwardedCounter w /\
  serial w' = match k with
              | O => serial w
              | S k' => Some (List.length (ports w) + k')
              end /\
  List.length (ports w') = List.length (ports w) + k.
Proof.
  revert w. induction k as [|k IH]; intros w; cbv zeta.
  - cbn [restarts ret res_world]. rewrite !Nat.add_0_r. repeat split.
  - cbn [restarts].
    rewrite bind_world, (start_ok quiet settings w (first_throw_quiet _)).
    cbn [res_val res_world]. rewrite bind_world, stop_after_start.
    rewrite stop_run. cbn [res_val].
    destruct (IH (set_timers (timers w ++ [{| period := 20000; active := false |}])
                             (after_start settings w)))
      as (H1 & H2 & H3 & H4 & H5).
    rewrite H1, H2, H3, H4, H5.
    cbn [set_timers after_start bus forwardedCounter serial ports].
    rewrite !subscribers_app, length_app. cbn [List.length].
    change (subscribers (str "nmea0183") [str "nmea0183"; str "nmea0183out"]) with 1.
    change (subscribers (str "nmea0183out") [str "nmea0183"; str "nmea0183out"]) with 1.
    repeat split; try lia.
    destruct k; f_equal; lia.
Qed.

(** X13: [stop] does not unsubscribe, so restarts multiply the forwarding.
    After [k] rounds of [start] and [stop] on the module as loaded, a
    sentence that passes the framing check and is emitted once on "nmea0183"
    is counted [k] times and written [k] times, each time to the port of the
    last start. *)
Theorem restarts_multiply_forwarding
        (k : nat) (settings : PluginSettings) (sentence : jsstring) :
  isForwardable sentence = true ->
  let w := res_world (restarts k settings initial) in
  let r := app_emit quiet (str "nmea0183") sentence w in
  forwardedCounter (res_world r) = N.of_nat k /\
  res_out r = repeat (SerialWrite (k - 1) (trim sentence +++ crlf)) k.
Proof.
  intros Hok w r. unfold r.
  rewrite (app_emit_ok quiet (str "nmea0183") sentence w Hok (fun _ _ => eq_refl)).
  destruct (restarts_world k settings initial) as (H1 & _ & H3 & H4 & _).
  fold w in H1, H3, H4. cbn [res_world res_out set_forwardedCounter forwardedCounter].
  rewrite H1, H3, H4. cbn [initial bus forwardedCounter subscribers filter List.length
                           serial ports].
  split; [lia |].
  destruct k as [|k]; [reflexivity |].
  replace (S k - 1) with k by lia. reflexivity.
Qed.

Lemma restarts_multiply_forwarding_witness :
  isForwardable sample_sentence = true /\
  forwardedCounter
    (res_world (app_emit quiet (str "nmea0183") sample_sentence
                         (res_world (restarts 3 sample_settings initial)))) = 3%N /\
  res_out (app_emit quiet (str "nmea0183") sample_sentence
                    (res_world (restarts 3 sample_settings initial))) =
    [SerialWrite 2 (sample_sentence +++ crlf);
     SerialWrite 2 (sample_sentence +++ crlf);
     SerialWrite 2 (sample_sentence +++ crlf)].
Proof.
  split; [reflexivity |].
  apply (@restarts_multiply_forwarding 3 sample_settings sample_sentence).
  reflexivity.
Defined.

(** ** The schema and the fallback of start *)

(** X14: every setting the schema lists as required has a default in the
    schema, and the default baud rate is the rate [start] builds the port
    with when [baudRate] is missing or 0. *)
Theorem schema_defaults_match_start (settings : PluginSettings) :
  (forall name : jsstring,
      In name schema_required -> exists d : json, schema_default name = Some d) /\
  (baudRate settings = None \/ baudRate settings = Some 0%N ->
   schema_default (str "baudRate") = Some (JNumber (effective_baudRate settings))).
Proof.
  split.
  - intros name [<- | [<- | []]]; eexists; reflexivity.
  - unfold effective_baudRate. intros [-> | ->]; reflexivity.
Qed.

Lemma schema_defaults_match_start_witness :
  In (str "serialPort") schema_required /\
  schema_default (str "baudRate")
  = Some (JNumber (effective_baudRate {| baudRate := None; serialPort := None |})).
Proof.
  split; [right; left; reflexivity |].
  apply (schema_defaults_match_start {| baudRate := None; serialPort := None |}).
  left. reflexivity.
Defined.
